(** * Maniway Pass Maker: the offline synchronisation core

    A shallow embedding of
    - [app/api/sync/route.ts]          (server reconciliation handler),
    - [app/api/passes/update/route.ts] (visitor update endpoint),
    - [app/api/passes/status/route.ts] (status endpoint),
    - [app/api/passes/[passId]/route.ts] (pass details endpoint),
    - [lib/dexie.ts]                   (pending-operation queue),
    - [lib/sync.ts]                    (client sync engine),
    - [lib/pdf-generator.ts]           (page layout of printed passes),
    - the dashboard's manual-sync handler,
    followed by the properties established about them. *)

From Stdlib Require Import ZArith QArith List Sorting.Sorted Sorting.Permutation.
From stdpp Require Import base option list gmap strings pretty fin_maps.

Open Scope string_scope.
Open Scope list_scope.
Open Scope Z_scope.

(** ** Values

    The values that travel in JSON bodies and sit in MongoDB documents:
    [null], booleans, numbers, strings, arrays and objects, and the [Date]s
    the server writes.  A JavaScript [undefined] is the absence of a value: a
    property read is a map lookup and yields [None] for it.  A [VDate]
    carries the epoch milliseconds of a stored [Date]. *)

#[warnings="-register-all"]
Inductive value : Type :=
  | VNull
  | VBool (b : bool)
  | VNum (n : Z)
  | VStr (s : string)
  | VDate (t : Z)
  | VArr (l : list value)
  | VObj (o : gmap string value).

Fixpoint value_dec (a b : value) : Decision (a = b).
Proof.
  refine
    (match a, b with
     | VNull, VNull => left eq_refl
     | VBool x, VBool y => cast_if (decide (x = y))
     | VNum x, VNum y => cast_if (decide (x = y))
     | VStr x, VStr y => cast_if (decide (x = y))
     | VDate x, VDate y => cast_if (decide (x = y))
     | VArr x, VArr y =>
         cast_if (@decide (x = y) (@list_eq_dec _ value_dec x y))
     | VObj x, VObj y =>
         cast_if (@decide (x = y) (@gmap_eq_dec _ _ _ _ value_dec x y))
     | _, _ => right _
     end); congruence.
Defined.

#[global] Instance value_eq_dec : EqDecision value := value_dec.

(** A JavaScript object used as a record of named fields. *)
Abbreviation obj := (gmap string value).

(** Modelled from the spec: [lib/db.ts] ([getDb], which fixes the options of
    the MongoDB driver) is not among the sources.  As the spec has it, a
    property that a request leaves out erases the stored value: an [undefined]
    entry of a [$set] is stored as [null], which is what the driver does with
    its default options. *)
Definition bson (v : option value) : value :=
  match v with
  | Some x => x
  | None => VNull
  end.

(** JavaScript truthiness, as used by [!passId] and [a || b]. *)
Definition truthy (v : option value) : bool :=
  match v with
  | None | Some VNull => false
  | Some (VBool b) => b
  | Some (VNum n) => negb (n =? 0)
  | Some (VStr s) => negb (String.eqb s "")
  | Some (VDate _) | Some (VArr _) | Some (VObj _) => true
  end.

(** The own enumerable properties of a value, as an object rest pattern
    ([const { k, ...rest } = v]) collects them: those of an object, the
    elements of an array and the characters of a string under their indices,
    and none for a number, a boolean or a [Date].  ([null] and [undefined]
    have no properties at all: destructuring them throws.) *)
Definition indexed (l : list value) : obj :=
  list_to_map (imap (fun i v => (pretty i, v)) l).

Fixpoint characters (s : string) : list value :=
  match s with
  | EmptyString => []
  | String c s' => VStr (String c EmptyString) :: characters s'
  end.

Definition ownProperties (v : value) : obj :=
  match v with
  | VObj o => o
  | VArr l => indexed l
  | VStr s => indexed (characters s)
  | VNull | VBool _ | VNum _ | VDate _ => ∅
  end.

(** ** Dates

    A JavaScript [Date] is an instant, in epoch milliseconds, or the
    Invalid Date that [new Date(s)] builds from a string it cannot parse. *)

Inductive Date : Type :=
  | Instant (t : Z)
  | InvalidDate.

(** [a > b] on two [Date]s compares their time values; the time value of an
    Invalid Date is [NaN], and every comparison with [NaN] is false. *)
Definition laterThan (a b : Date) : bool :=
  match a, b with
  | Instant x, Instant y => x >? y
  | _, _ => false
  end.

(** A [Date] as the MongoDB driver stores it.  The driver is not among the
    sources: BSON keeps a date as its 64-bit millisecond count, and the
    count the driver writes for an Invalid Date is 0. *)
Definition bsonDate (d : Date) : Z :=
  match d with
  | Instant t => t
  | InvalidDate => 0
  end.

(** ** Pass documents ([lib/models/pass.ts])

    The [passes] collection is keyed by the unique [passId].  Of a document we
    keep [updatedAt] apart, as the [Date] the interface declares (every write
    in the sources stores a [Date] there); all other properties ([status],
    [name], [mobile], [city], [age], [createdAt], [usedAt], ...) live in
    [fields]. *)

Record Pass : Type := mkPass {
  updatedAt : Z;
  fields : obj
}.

#[global] Instance Pass_eq_dec : EqDecision Pass.
Proof. solve_decision. Defined.

Abbreviation passes := (gmap string Pass).

(** [db.collection('passes').findOne({ passId })] *)
Definition findOne (db : passes) (passId : option string) : option Pass :=
  match passId with
  | Some s => db !! s
  | None => None
  end.

(** [db.collection('passes').updateOne({ passId }, { $set: ... })]: the
    update [f] is applied to the matching document; the second component is
    [matchedCount]. *)
Definition updateOne (db : passes) (passId : option string) (f : Pass -> Pass)
  : passes * nat :=
  match passId with
  | Some s =>
      match db !! s with
      | Some p => (<[s := f p]> db, 1%nat)
      | None => (db, 0%nat)
      end
  | None => (db, 0%nat)
  end.

(** ** Operations ([PendingOperation] of [lib/dexie.ts], [SyncOperationSchema]) *)

Inductive OpType : Type :=
  | CreatePass
  | UpdatePass
  | CreateEvent
  | UpdateStatus.

#[global] Instance OpType_eq_dec : EqDecision OpType.
Proof. solve_decision. Defined.

(** An operation has the same seven properties in the queue of the device and
    in a request to the reconciliation handler; the two differ in what
    [payload] and [createdAt] can be, which the record takes as parameters. *)
Record Operation (P T : Type) : Type := mkOp {
  id : nat;
  type : OpType;
  passId : option string;
  eventId : option string;
  payload : P;
  createdAt : T;
  retryCount : nat
}.

Arguments mkOp {P T}.
Arguments id {P T}.
Arguments type {P T}.
Arguments passId {P T}.
Arguments eventId {P T}.
Arguments payload {P T}.
Arguments createdAt {P T}.
Arguments retryCount {P T}.

(** [PendingOperation], a row of the queue: the application queues an object
    as [payload] and [new Date()] as [createdAt], kept as the instant. *)
Abbreviation PendingOperation := (Operation obj Z).

(** An operation that has passed [SyncOperationSchema].  [payload] is
    [z.any()]: any JSON value, or nothing at all ([None]).  [createdAt] is
    [z.string()], any string; the handler only ever reads it through
    [new Date(op.createdAt)], and the field holds that [Date]. *)
Abbreviation SyncOperation := (Operation (option value) Date).

(** The template literal [`${op.passId}`]. *)
Definition showPassId (p : option string) : string :=
  match p with
  | Some s => s
  | None => "undefined"
  end.

(** What [await request.json()] gives a route handler: the JSON value of the
    body, or a [SyntaxError] with the parser's message when the body is not
    JSON. *)
Inductive Parsed : Type :=
  | Malformed (message : string)
  | Json (v : value).

(** ** Server reconciliation handler ([app/api/sync/route.ts]) *)

Module SyncRoute.

(** How a [process*] function ends: it returns, or throws an [Error] with a
    message. *)
Inductive completion : Type :=
  | Returned
  | Thrown (message : string).

(** The outcome of a [process*] call: the store afterwards, how the call
    ended, and the lines it wrote with [console.log]. *)
Record outcome : Type := mkOutcome {
  store : passes;
  ending : completion;
  logged : list string
}.

Definition notFound (op : SyncOperation) : string :=
  "Pass " +:+ showPassId (passId op) +:+ " not found".

(** The message of the [TypeError] thrown by
    [const { passId, ...updateData } = op.payload] when the payload is [null]
    or [undefined].  The wording is the JavaScript engine's; this is V8's. *)
Definition cannotDestructure (nothing : string) : string :=
  "Cannot destructure property 'passId' of 'op.payload' as it is "
    +:+ nothing +:+ ".".

(** The message of the [TypeError] thrown by [op.payload.status] when the
    payload is [null] or [undefined], in V8's wording. *)
Definition cannotRead (nothing : string) : string :=
  "Cannot read properties of " +:+ nothing +:+ " (reading 'status')".

(** [const { passId, ...updateData } = op.payload]: the rest object, or the
    message of the [TypeError]. *)
Definition updateDataOf (payload : option value) : string + obj :=
  match payload with
  | None => inl (cannotDestructure "undefined")
  | Some VNull => inl (cannotDestructure "null")
  | Some v => inr (delete "passId" (ownProperties v))
  end.

(** [op.payload.status]: the property (absent when [undefined]), or the
    message of the [TypeError].  No value that JSON can carry inherits a
    property named [status]. *)
Definition statusOf (payload : option value) : string + option value :=
  match payload with
  | None => inl (cannotRead "undefined")
  | Some VNull => inl (cannotRead "null")
  | Some v => inr (ownProperties v !! "status")
  end.

(** [$set: { ...updateData, updatedAt: opTimestamp }] *)
Definition setUpdatePass (updateData : obj) (opTimestamp : Date) (p : Pass) : Pass :=
  {| updatedAt := bsonDate opTimestamp;
     fields := delete "updatedAt" updateData ∪ fields p |}.

Definition processUpdatePass (db : passes) (op : SyncOperation) : outcome :=
  match findOne db (passId op) with
  | None => mkOutcome db (Thrown (notFound op)) []
  | Some currentPass =>
      let opTimestamp := createdAt op in
      let currentTimestamp := Instant (updatedAt currentPass) in
      if laterThan currentTimestamp opTimestamp then
        mkOutcome db Returned
          ["Skipping update for " +:+ showPassId (passId op)
             +:+ ": server version is newer"]
      else
        match updateDataOf (payload op) with
        | inl message => mkOutcome db (Thrown message) []
        | inr updateData =>
            let '(db', matchedCount) :=
              updateOne db (passId op) (setUpdatePass updateData opTimestamp) in
            if (matchedCount =? 0)%nat
            then mkOutcome db' (Thrown (notFound op)) []
            else mkOutcome db' Returned []
        end
  end.

Definition processCreatePass (db : passes) (op : SyncOperation) : outcome :=
  mkOutcome db
    (Thrown "Create pass operations should use /api/passes/create-batch") [].

(** [updateData] of [processUpdateStatus]: [status], [updatedAt] and a
    [usedAt] that is the operation's timestamp for ['used'] and [null]
    otherwise. *)
Definition setUpdateStatus (status : option value) (opTimestamp : Date) (p : Pass)
  : Pass :=
  let usedAt :=
    if decide (status = Some (VStr "used"))
    then VDate (bsonDate opTimestamp) else VNull in
  {| updatedAt := bsonDate opTimestamp;
     fields := <["status" := bson status]> (<["usedAt" := usedAt]> (fields p)) |}.

Definition processUpdateStatus (db : passes) (op : SyncOperation) : outcome :=
  match findOne db (passId op) with
  | None => mkOutcome db (Thrown (notFound op)) []
  | Some currentPass =>
      let opTimestamp := createdAt op in
      let currentTimestamp := Instant (updatedAt currentPass) in
      if laterThan currentTimestamp opTimestamp then
        mkOutcome db Returned
          ["Skipping status update for " +:+ showPassId (passId op)
             +:+ ": server version is newer"]
      else
        match statusOf (payload op) with
        | inl message => mkOutcome db (Thrown message) []
        | inr status =>
            let '(db', matchedCount) :=
              updateOne db (passId op) (setUpdateStatus status opTimestamp) in
            if (matchedCount =? 0)%nat
            then mkOutcome db' (Thrown (notFound op)) []
            else mkOutcome db' Returned []
        end
  end.

Definition processCreateEvent (db : passes) (op : SyncOperation) : outcome :=
  mkOutcome db
    (Thrown "Create event operations should use /api/events/create") [].

(** The [switch] of the handler's loop body. *)
Definition processOperation (db : passes) (op : SyncOperation) : outcome :=
  match type op with
  | UpdatePass => processUpdatePass db op
  | CreatePass => processCreatePass db op
  | UpdateStatus => processUpdateStatus db op
  | CreateEvent => processCreateEvent db op
  end.

Record OpError : Type := mkOpError {
  operationId : nat;
  error : string
}.

(** The JSON answer of [POST /api/sync]. *)
Record Results : Type := mkResults {
  success : bool;
  processed : nat;
  failed : nat;
  errors : list OpError
}.

Definition initialResults : Results :=
  {| success := true; processed := 0; failed := 0; errors := [] |}.

(** One turn of [for (const op of operations)]: [try] the operation, count
    it as processed, or [catch] and record the failure. *)
Definition step (st : passes * Results) (op : SyncOperation)
  : passes * Results :=
  let '(db, results) := st in
  let out := processOperation db op in
  match ending out with
  | Returned =>
      (store out,
       {| success := success results;
          processed := S (processed results);
          failed := failed results;
          errors := errors results |})
  | Thrown message =>
      (store out,
       {| success := success results;
          processed := processed results;
          failed := S (failed results);
          errors := errors results ++ [mkOpError (id op) message] |})
  end.

(** [POST]: the validated [operations] are processed in order and
    [results.success] is settled at the end. *)
Definition POST (db : passes) (operations : list SyncOperation)
  : passes * Results :=
  let '(db', results) := fold_left step operations (db, initialResults) in
  (db',
   {| success := (failed results =? 0)%nat;
      processed := processed results;
      failed := failed results;
      errors := errors results |}).

End SyncRoute.

(** ** Visitor update endpoint ([app/api/passes/update/route.ts]) *)

Module UpdateRoute.

(** The [pass] object of the success answer. *)
Record PassView : Type := mkView {
  viewPassId : string;
  viewStatus : option value;
  viewName : option value;
  viewMobile : option value;
  viewCity : option value;
  viewAge : option value;
  viewUpdatedAt : Z
}.

(** An answer built with [NextResponse.json]: the HTTP status, the [error]
    property of the body and, on success, its [pass] property. *)
Record Answer : Type := mkAnswer {
  status : nat;
  error : option string;
  pass : option PassView
}.

(** [findOne({ passId })] with the [passId] taken from the body as it is: only a
    string can match a stored pass id.  (A [passId] that is itself an object
    is read by MongoDB as a query document, with operators such as [$ne];
    their evaluation is not part of these sources, and nothing below is
    stated for such a [passId].) *)
Definition findByValue (db : passes) (passId : option value) : option Pass :=
  match passId with
  | Some (VStr s) => db !! s
  | _ => None
  end.

(** [$set: { name, mobile, city, age, updatedAt: new Date() }] *)
Definition setVisitor (name mobile city age : option value) (now : Z) (p : Pass)
  : Pass :=
  {| updatedAt := now;
     fields :=
       <["name" := bson name]>
         (<["mobile" := bson mobile]>
            (<["city" := bson city]>
               (<["age" := bson age]> (fields p)))) |}.

Definition view (s : string) (p : Pass) : PassView :=
  {| viewPassId := s;
     viewStatus := fields p !! "status";
     viewName := fields p !! "name";
     viewMobile := fields p !! "mobile";
     viewCity := fields p !! "city";
     viewAge := fields p !! "age";
     viewUpdatedAt := updatedAt p |}.

(** [PUT], from the destructuring of [body] on: [body] holds the properties of
    the parsed request body, [now] is the server clock read by [new Date()]. *)
Definition PUT (db : passes) (now : Z) (body : obj) : passes * Answer :=
  let passId := body !! "passId" in
  let name := body !! "name" in
  let mobile := body !! "mobile" in
  let city := body !! "city" in
  let age := body !! "age" in
  if negb (truthy passId) then
    (db, mkAnswer 400 (Some "Pass ID is required") None)
  else
    match passId, findByValue db passId with
    | Some (VStr s), Some existingPass =>
        let '(db', matchedCount) :=
          updateOne db (Some s) (setVisitor name mobile city age now) in
        if (matchedCount =? 0)%nat then
          (db', mkAnswer 404 (Some "Pass not found") None)
        else
          (db', mkAnswer 200 None (view s <$> db' !! s))
    | _, _ => (db, mkAnswer 404 (Some "Pass not found") None)
    end.

(** The message of the [TypeError] thrown by
    [const { passId, name, mobile, city, age } = body] for a [null] body, in
    V8's wording. *)
Definition cannotDestructure : string :=
  "Cannot destructure property 'passId' of 'body' as it is null.".

(** [PUT] as a whole, on whatever [await request.json()] gives.  A body that
    is not JSON and a [null] body end in the [catch], which answers 500 with
    the message of the error.  Of any other value the five properties are
    read; none of them is inherited by a value that JSON can carry.  The
    result is [None] where the [passId] is an object, for which the lookup is
    up to MongoDB's query operators. *)
Definition PUT_json (db : passes) (now : Z) (parsed : Parsed)
  : option (passes * Answer) :=
  match parsed with
  | Malformed message => Some (db, mkAnswer 500 (Some message) None)
  | Json VNull => Some (db, mkAnswer 500 (Some cannotDestructure) None)
  | Json v =>
      let body := ownProperties v in
      match body !! "passId" with
      | Some (VObj _) => None
      | _ => Some (PUT db now body)
      end
  end.

End UpdateRoute.

(** ** Status endpoint ([PATCH /api/passes/status]) *)

Module StatusRoute.

(** An answer built with [NextResponse.json]: the HTTP status, the [error]
    property of the body and its [pass] property, the document as stored. *)
Record Answer : Type := mkAnswer {
  status : nat;
  error : option string;
  pass : option Pass
}.

(** A text between double quotes (character 34). *)
Definition quoted (s : string) : string :=
  let mark := Ascii.Ascii false true false false false true false false in
  String mark (s +:+ String mark EmptyString).

Definition invalidStatus : string :=
  "Status must be either " +:+ quoted "used" +:+ " or " +:+ quoted "unused".

(** [$set: { status, updatedAt: now, usedAt }], with [usedAt] the clock for
    ['used'] and [null] otherwise. *)
Definition setStatus (status : value) (now : Z) (p : Pass) : Pass :=
  let usedAt := if decide (status = VStr "used") then VDate now else VNull in
  {| updatedAt := now;
     fields := <["status" := status]> (<["usedAt" := usedAt]> (fields p)) |}.

(** [PATCH], from the destructuring of [body] on: [user] tells whether
    [getCurrentUser()] finds a valid session, [body] holds the properties of
    the parsed request body, [now] is the server clock.  [modifiedCount] is 0
    when the [$set] leaves the document as it is. *)
Definition PATCH (db : passes) (now : Z) (user : bool) (body : obj)
  : passes * Answer :=
  if negb user then
    (db, mkAnswer 401 (Some "Unauthorized") None)
  else
    let passId := body !! "passId" in
    let status := body !! "status" in
    if negb (truthy passId) then
      (db, mkAnswer 400 (Some "Pass ID is required") None)
    else if negb (bool_decide (status = Some (VStr "used"))
                  || bool_decide (status = Some (VStr "unused"))) then
      (db, mkAnswer 400 (Some invalidStatus) None)
    else
      match passId, UpdateRoute.findByValue db passId with
      | Some (VStr s), Some existingPass =>
          if bool_decide (fields existingPass !! "status" = Some (VStr "used"))
             && bool_decide (status = Some (VStr "used")) then
            (db, mkAnswer 409 (Some "Pass is already marked as used")
                   (Some existingPass))
          else
            let '(db', _) :=
              updateOne db (Some s) (setStatus (bson status) now) in
            let modifiedCount :=
              if decide (setStatus (bson status) now existingPass = existingPass)
              then 0%nat else 1%nat in
            if (modifiedCount =? 0)%nat then
              (db', mkAnswer 500 (Some "Failed to update pass status") None)
            else
              (db', mkAnswer 200 None (db' !! s))
      | _, _ => (db, mkAnswer 404 (Some "Pass not found") None)
      end.

End StatusRoute.

(** ** The pending-operation queue ([lib/dexie.ts])

    The [pendingOps] table is declared ['++id, type, passId, createdAt']: an
    auto-incremented primary key [id] and an index on [createdAt].  The table
    is the list of its rows together with the key generator, which starts at 1
    and never goes back. *)

Module Dexie.

Record Table : Type := mkTable {
  rows : list PendingOperation;
  nextId : nat
}.

Definition emptyTable : Table := {| rows := []; nextId := 1 |}.

Definition withId (n : nat) (op : PendingOperation) : PendingOperation :=
  {| id := n; type := type op; passId := passId op; eventId := eventId op;
     payload := payload op; createdAt := createdAt op;
     retryCount := retryCount op |}.

Definition withRetryCount (n : nat) (op : PendingOperation) : PendingOperation :=
  {| id := id op; type := type op; passId := passId op; eventId := eventId op;
     payload := payload op; createdAt := createdAt op;
     retryCount := n |}.

(** [queueOperation]: [db.pendingOps.add(operation)]; the operation comes
    without an id and receives the next key, which is returned. *)
Definition queueOperation (operation : PendingOperation) (t : Table)
  : Table * nat :=
  ({| rows := rows t ++ [withId (nextId t) operation]; nextId := S (nextId t) |},
   nextId t).

(** Order of the entries of the [createdAt] index: by key, then by primary
    key. *)
Definition indexLeb (a b : PendingOperation) : bool :=
  (createdAt a <? createdAt b)
  || ((createdAt a =? createdAt b)%Z && (id a <=? id b)%nat).

Fixpoint indexInsert (op : PendingOperation) (l : list PendingOperation)
  : list PendingOperation :=
  match l with
  | [] => [op]
  | x :: l' => if indexLeb op x then op :: x :: l' else x :: indexInsert op l'
  end.

(** [table.orderBy('createdAt').toArray()]: the rows in index order. *)
Definition orderByCreatedAt (l : list PendingOperation) : list PendingOperation :=
  fold_right indexInsert [] l.

Definition getPendingOperations (t : Table) : list PendingOperation :=
  orderByCreatedAt (rows t).

Definition getPendingOperationsCount (t : Table) : nat := length (rows t).

(** [db.pendingOps.delete(id)] *)
Definition removePendingOperation (n : nat) (t : Table) : Table :=
  {| rows := filter (fun op => id op ≠ n) (rows t); nextId := nextId t |}.

(** [db.pendingOps.update(id, { retryCount })] *)
Definition updatePendingOperationRetryCount (n retry : nat) (t : Table) : Table :=
  {| rows := (fun op => if decide (id op = n) then withRetryCount retry op else op)
               <$> rows t;
     nextId := nextId t |}.

(** [isOnline]: [navigator] is absent outside a browser. *)
Definition isOnline (navigator : option bool) : bool :=
  match navigator with
  | Some onLine => onLine
  | None => true
  end.

End Dexie.

(** ** The client sync engine ([lib/sync.ts]) *)

Module Sync.

Record SyncError : Type := mkSyncError {
  operationId : nat;
  error : string;
  retryable : bool
}.

Record SyncResult : Type := mkSyncResult {
  success : bool;
  synced : nat;
  failed : nat;
  errors : list SyncError
}.

Definition MAX_RETRIES : nat := 3.
Definition RETRY_DELAY_MS : nat := 1000.

(** A request handed to [fetch]: the endpoint, the method and the object that
    is serialised as the JSON body. *)
Record Request : Type := mkRequest {
  url : string;
  method : string;
  body : obj
}.

(** What [response.json()] yields: it throws, or gives the parsed body, of
    which the engine reads only [error]. *)
Inductive Json : Type :=
  | BadJson (message : string)
  | Data (error : option string).

Record Response : Type := mkResponse {
  ok : bool;
  json : Json
}.

(** [await fetch(...)]: the promise is rejected (no network, time-out) or
    resolves to a response. *)
Inductive Fetched : Type :=
  | Rejected (message : string)
  | Resolved (response : Response).

(** What the engine does to the outside, in order. *)
Inductive Event : Type :=
  | Fetch (request : Request)
  | Wait (ms : nat).

(** How a [sync*] function ends. *)
Inductive completion : Type :=
  | Returned
  | Thrown (message : string).

(** [{ passId: op.passId, ...op.payload }] as serialised by [JSON.stringify]:
    an undefined [passId] is left out, and a [passId] inside the payload
    overrides the operation's own. *)
Definition withPassId (op : PendingOperation) : obj :=
  payload op ∪ from_option (fun s => {[ "passId" := VStr s ]}) ∅ (passId op).

Definition requestOf (op : PendingOperation) : Request :=
  match type op with
  | UpdatePass => mkRequest "/api/passes/update" "PUT" (withPassId op)
  | CreatePass => mkRequest "/api/passes/create-batch" "POST" (payload op)
  | UpdateStatus => mkRequest "/api/passes/status" "PATCH" (withPassId op)
  | CreateEvent => mkRequest "/api/events/create" "POST" (payload op)
  end.

(** [data.error || fallback] *)
Definition orElse (e : option string) (fallback : string) : string :=
  match e with
  | Some s => if String.eqb s "" then fallback else s
  | None => fallback
  end.

(** [if (!response.ok) { const data = await response.json();
    throw new Error(data.error || fallback) }] *)
Definition settle (f : Fetched) (fallback : string) : completion :=
  match f with
  | Rejected message => Thrown message
  | Resolved response =>
      if ok response then Returned
      else match json response with
           | BadJson message => Thrown message
           | Data e => Thrown (orElse e fallback)
           end
  end.

Section Engine.

(** The world beyond the device (network and server) and its answer to a
    request. *)
Variable World : Type.
Variable fetch : Request -> World -> Fetched * World.

(** The device and its surroundings during a drain. *)
Record Env : Type := mkEnv {
  pendingOps : Dexie.Table;
  world : World;
  trace : list Event
}.

Definition send (request : Request) (fallback : string) (env : Env)
  : Env * completion :=
  let '(f, w) := fetch request (world env) in
  ({| pendingOps := pendingOps env; world := w;
      trace := trace env ++ [Fetch request] |},
   settle f fallback).

Definition syncUpdatePass (op : PendingOperation) (env : Env) : Env * completion :=
  send (mkRequest "/api/passes/update" "PUT" (withPassId op))
       "Failed to update pass" env.

Definition syncCreatePass (op : PendingOperation) (env : Env) : Env * completion :=
  send (mkRequest "/api/passes/create-batch" "POST" (payload op))
       "Failed to create pass" env.

Definition syncUpdateStatus (op : PendingOperation) (env : Env) : Env * completion :=
  send (mkRequest "/api/passes/status" "PATCH" (withPassId op))
       "Failed to update pass status" env.

Definition syncCreateEvent (op : PendingOperation) (env : Env) : Env * completion :=
  send (mkRequest "/api/events/create" "POST" (payload op))
       "Failed to create event" env.

Definition processSingleOperation (op : PendingOperation) (env : Env)
  : Env * completion :=
  match type op with
  | UpdatePass => syncUpdatePass op env
  | CreatePass => syncCreatePass op env
  | UpdateStatus => syncUpdateStatus op env
  | CreateEvent => syncCreateEvent op env
  end.

Definition onQueue (f : Dexie.Table -> Dexie.Table) (env : Env) : Env :=
  {| pendingOps := f (pendingOps env); world := world env; trace := trace env |}.

Definition wait (ms : nat) (env : Env) : Env :=
  {| pendingOps := pendingOps env; world := world env;
     trace := trace env ++ [Wait ms] |}.

(** One turn of [for (const op of pendingOps)]; [op] is the row as it was read
    at the start of the drain. *)
Definition turn (st : Env * SyncResult) (op : PendingOperation)
  : Env * SyncResult :=
  let '(env, result) := st in
  let '(env1, c) := processSingleOperation op env in
  match c with
  | Returned =>
      (onQueue (Dexie.removePendingOperation (id op)) env1,
       {| success := success result;
          synced := S (synced result);
          failed := failed result;
          errors := errors result |})
  | Thrown errorMessage =>
      let retryable := (retryCount op <? MAX_RETRIES)%nat in
      let result' :=
        {| success := success result;
           synced := synced result;
           failed := S (failed result);
           errors := errors result
                       ++ [mkSyncError (id op) errorMessage retryable] |} in
      if retryable then
        let env2 :=
          onQueue (Dexie.updatePendingOperationRetryCount
                     (id op) (retryCount op + 1)%nat) env1 in
        let delay := (RETRY_DELAY_MS * 2 ^ retryCount op)%nat in
        (wait delay env2, result')
      else
        (onQueue (Dexie.removePendingOperation (id op)) env1, result')
  end.

Definition emptyResult : SyncResult :=
  {| success := true; synced := 0; failed := 0; errors := [] |}.

(** [syncPendingOperations]: one drain of the queue.  The table operations of
    the model cannot fail, so the outer [catch] is never entered. *)
Definition syncPendingOperations (env : Env) : Env * SyncResult :=
  let pending := Dexie.getPendingOperations (pendingOps env) in
  if (length pending =? 0)%nat then (env, emptyResult)
  else
    let '(env', result) := fold_left turn pending (env, emptyResult) in
    (env',
     {| success := (failed result =? 0)%nat;
        synced := synced result;
        failed := failed result;
        errors := errors result |}).

Definition triggerManualSync (env : Env) : Env * SyncResult :=
  syncPendingOperations env.

End Engine.

Arguments RETRY_DELAY_MS : simpl never.
Arguments mkEnv {World}.
Arguments pendingOps {World}.
Arguments world {World}.
Arguments trace {World}.
Arguments onQueue {World}.
Arguments wait {World}.

End Sync.

(** ** The dashboard's manual trigger ([DashboardClient]) *)

Module Dashboard.

(** The component state kept with [useState]. *)
Record State : Type := mkState {
  pendingOpsCount : nat;
  offline : bool;
  syncing : bool;
  syncMessage : option string
}.

(** The "Sync Now" button, whose [onClick] is [handleManualSync]: it is
    rendered while [!offline && pendingOpsCount > 0] and disabled while
    [syncing]. *)
Definition syncNowEnabled (ui : State) : bool :=
  negb (offline ui) && (0 <? pendingOpsCount ui)%nat && negb (syncing ui).

Section Monitor.

Variable World : Type.
Variable fetch : Sync.Request -> World -> Sync.Fetched * World.

Abbreviation Env := (Sync.Env World).

(** [loadPendingOpsCount] *)
Definition loadPendingOpsCount (ui : State) (env : Env) : State :=
  {| pendingOpsCount := Dexie.getPendingOperationsCount (Sync.pendingOps env);
     offline := offline ui;
     syncing := syncing ui;
     syncMessage := syncMessage ui |}.

Definition setSyncMessage (m : string) (ui : State) : State :=
  {| pendingOpsCount := pendingOpsCount ui;
     offline := offline ui;
     syncing := syncing ui;
     syncMessage := Some m |}.

(** The message shown after a manual drain. *)
Definition report (result : Sync.SyncResult) : string :=
  if Sync.success result then
    "Successfully synced " +:+ pretty (Sync.synced result) +:+ " operations"
  else
    "Synced " +:+ pretty (Sync.synced result) +:+ " operations, "
      +:+ pretty (Sync.failed result) +:+ " failed".

(** [handleManualSync], the handler of the "Sync Now" button: the state and
    the surroundings once the handler has run to its end. *)
Definition handleManualSync (ui : State) (env : Env) : State * Env :=
  if offline ui then
    (setSyncMessage "Cannot sync while offline" ui, env)
  else if (pendingOpsCount ui =? 0)%nat then
    (setSyncMessage "No pending operations to sync" ui, env)
  else
    let '(env', result) := Sync.triggerManualSync World fetch env in
    let ui' := loadPendingOpsCount (setSyncMessage (report result) ui) env' in
    ({| pendingOpsCount := pendingOpsCount ui';
        offline := offline ui';
        syncing := false;
        syncMessage := syncMessage ui' |}, env').

End Monitor.

End Dashboard.


(** ** Pass details endpoint ([app/api/passes/[passId]/route.ts]) *)

Module PassRoute.

(** The [pass] object of the success answer. *)
Record PassDetails : Type := mkDetails {
  detailPassId : string;
  detailEventId : option value;
  detailStatus : option value;
  detailName : option value;
  detailMobile : option value;
  detailCity : option value;
  detailAge : option value;
  detailCreatedAt : option value;
  detailUpdatedAt : Z;
  detailUsedAt : option value
}.

Record Answer : Type := mkAnswer {
  status : nat;
  error : option string;
  pass : option PassDetails
}.

Definition details (s : string) (p : Pass) : PassDetails :=
  {| detailPassId := s;
     detailEventId := fields p !! "eventId";
     detailStatus := fields p !! "status";
     detailName := fields p !! "name";
     detailMobile := fields p !! "mobile";
     detailCity := fields p !! "city";
     detailAge := fields p !! "age";
     detailCreatedAt := fields p !! "createdAt";
     detailUpdatedAt := updatedAt p;
     detailUsedAt := fields p !! "usedAt" |}.

(** [GET]: [passId] is the route parameter. *)
Definition GET (db : passes) (passId : string) : Answer :=
  if String.eqb passId "" then
    mkAnswer 400 (Some "Pass ID is required") None
  else
    match findOne db (Some passId) with
    | None => mkAnswer 404 (Some "Pass not found") None
    | Some pass => mkAnswer 200 None (Some (details passId pass))
    end.

End PassRoute.

(** ** Laying passes out on A4 pages ([generatePassPDF] of [lib/pdf-generator.ts])

    The document is represented by its pages and, on each page, the calls of
    [drawPassCard] in order: the card drawn and the lower-left corner it is
    drawn at.  Coordinates are PDF points; they are kept as rationals, which
    is exact here since every value the code computes is a multiple of one
    half. *)

Module PdfGenerator.

Record PassForPDF : Type := mkPassForPDF {
  passId : string;
  qrDataUrl : string;
  eventId : option string;
  status : option string
}.

Definition A4_WIDTH : Q := 595%Q.
Definition A4_HEIGHT : Q := 842%Q.
Definition PASS_WIDTH : Q := (A4_WIDTH / 2)%Q.
Definition PASS_HEIGHT : Q := (A4_HEIGHT / 2)%Q.
Definition passesPerPage : nat := 4.

(** One call of [drawPassCard]. *)
Record Drawn : Type := mkDrawn {
  card : PassForPDF;
  x : Q;
  y : Q
}.

(** [Math.ceil(n / d)] on lengths. *)
Definition ceilDiv (n d : nat) : nat :=
  (n / d + (if (n mod d =? 0)%nat then 0 else 1))%nat.

(** [array.slice(start, end)] for indices within the array. *)
Definition slice {A : Type} (startIndex endIndex : nat) (l : list A) : list A :=
  take (endIndex - startIndex) (drop startIndex l).

(** The inner loop: card [i] of a page goes to column [i % 2] and row
    [floor(i / 2)], counted from the top. *)
Definition drawPage (pagePasses : list PassForPDF) : list Drawn :=
  imap (fun i pass =>
          let col := (i mod 2)%nat in
          let row := (i / 2)%nat in
          {| card := pass;
             x := (inject_Z (Z.of_nat col) * PASS_WIDTH)%Q;
             y := (A4_HEIGHT - (inject_Z (Z.of_nat row) + 1) * PASS_HEIGHT)%Q |})
       pagePasses.

(** [pdfDoc.save()].  pdf-lib is not among the sources: with its default
    options ([addDefaultPage]) [save] adds one empty page to a document that
    has none. *)
Definition save (pages : list (list Drawn)) : list (list Drawn) :=
  match pages with
  | [] => [[]]
  | _ :: _ => pages
  end.

(** The pages of the saved document. *)
Definition generatePassPDF (passes : list PassForPDF) : list (list Drawn) :=
  let totalPages := ceilDiv (length passes) passesPerPage in
  save ((fun pageIndex =>
           let startIndex := (pageIndex * passesPerPage)%nat in
           let endIndex := Nat.min (startIndex + passesPerPage) (length passes) in
           drawPage (slice startIndex endIndex passes))
          <$> seq 0 totalPages).

End PdfGenerator.
(** * Vocabulary of the statements *)

Module SyncRouteSpec.
Import SyncRoute.

(** The own properties of a payload; there are none where there is no
    payload. *)
Definition properties (payload : option value) : obj :=
  from_option ownProperties ∅ payload.

(** What an applied update operation writes onto the record. *)
Definition written (op : SyncOperation) (p : Pass) : Pass :=
  match type op with
  | UpdateStatus =>
      setUpdateStatus (properties (payload op) !! "status") (createdAt op) p
  | _ =>
      setUpdatePass (delete "passId" (properties (payload op))) (createdAt op) p
  end.


Definition isUpdate {P T : Type} (op : Operation P T) : Prop :=
  type op = UpdatePass ∨ type op = UpdateStatus.

(** The operation has a payload: some JSON value other than [null]. *)
Definition hasPayload (op : SyncOperation) : Prop :=
  exists v, payload op = Some v /\ v ≠ VNull.

(** The operation has no payload to read properties from: it is [null] or
    missing. *)
Definition lacksPayload (op : SyncOperation) : bool :=
  match payload op with
  | None | Some VNull => true
  | Some _ => false
  end.

(** The [TypeError] message with which an update operation without payload
    fails once it is past the timestamp check. *)
Definition refusal (op : SyncOperation) : string :=
  let nothing :=
    match payload op with
    | None => "undefined"
    | Some _ => "null"
    end in
  match type op with
  | UpdateStatus => cannotRead nothing
  | _ => cannotDestructure nothing
  end.

(** Counters added to counters: what a run of the handler's loop that
    started from [r] has reached when, started afresh, it reaches [r']. *)
Definition tally (r r' : Results) : Results :=
  {| success := success r;
     processed := (processed r + processed r')%nat;
     failed := (failed r + failed r')%nat;
     errors := errors r ++ errors r' |}.

(** The operation's [createdAt] parses to a date. *)
Definition isDated (op : SyncOperation) : Prop :=
  exists t, createdAt op = Instant t.


(** A queued operation as a client of the handler posts it: the payload
    object as JSON carries it, and [createdAt] as the ISO string of its
    instant, which parses back to that instant. *)
Definition posted (op : PendingOperation) : SyncOperation :=
  {| id := id op; type := type op; passId := passId op; eventId := eventId op;
     payload := Some (VObj (payload op)); createdAt := Instant (createdAt op);
     retryCount := retryCount op |}.

End SyncRouteSpec.

Module DexieSpec.

(** Chronological order with ties broken by the enqueue sequence number. *)
Definition indexLe (a b : PendingOperation) : Prop :=
  createdAt a < createdAt b
  \/ (createdAt a = createdAt b /\ (id a <= id b)%nat).

(** The table reached by queueing the given operations one after the other. *)
Definition queueAll (l : list PendingOperation) : Dexie.Table :=
  fold_left (fun t operation => fst (Dexie.queueOperation operation t)) l
    Dexie.emptyTable.

End DexieSpec.

Module SyncSpec.

(** The message an engine failure carries when the answer has no [error]. *)
Definition fallbackOf (op : PendingOperation) : string :=
  match type op with
  | UpdatePass => "Failed to update pass"
  | CreatePass => "Failed to create pass"
  | UpdateStatus => "Failed to update pass status"
  | CreateEvent => "Failed to create event"
  end.

(** The rows of the queue that carry a given id. *)
Definition rowsWithId (n : nat) (t : Dexie.Table) : list PendingOperation :=
  filter (fun o => id o = n) (Dexie.rows t).

(** The requests of a trace, in order. *)
Definition fetches (tr : list Sync.Event) : list Sync.Request :=
  omap (fun e => match e with Sync.Fetch r => Some r | Sync.Wait _ => None end) tr.

(** The counters of a drain in progress: after [n] turns, [synced + failed]
    is [n] and [errors] has one entry per failure. *)
Definition tallies (n : nat) (r : Sync.SyncResult) : Prop :=
  (Sync.synced r + Sync.failed r = n)%nat
  /\ length (Sync.errors r) = Sync.failed r.

(** No two rows of the queue share an id. *)
Definition distinctIds (t : Dexie.Table) : Prop :=
  NoDup (id <$> Dexie.rows t).

(** The queue after the turn of [op], given how its dispatch ended. *)
Definition queueAfter (op : PendingOperation) (c : Sync.completion)
    (t : Dexie.Table) : Dexie.Table :=
  match c with
  | Sync.Returned => Dexie.removePendingOperation (id op) t
  | Sync.Thrown _ =>
      if (retryCount op <? Sync.MAX_RETRIES)%nat
      then Dexie.updatePendingOperationRetryCount (id op) (retryCount op + 1) t
      else Dexie.removePendingOperation (id op) t
  end.

(** What the turn of [op] does to the outside: its request and, after a
    failure that leaves it queued, the back-off wait. *)
Definition eventsOf (op : PendingOperation) (c : Sync.completion)
  : list Sync.Event :=
  Sync.Fetch (Sync.requestOf op)
  :: match c with
     | Sync.Returned => []
     | Sync.Thrown _ =>
         if (retryCount op <? Sync.MAX_RETRIES)%nat
         then [Sync.Wait (Sync.RETRY_DELAY_MS * 2 ^ retryCount op)]
         else []
     end.

(** The [errors] entry of a failed turn. *)
Definition errorOf (op : PendingOperation) (message : string) : Sync.SyncError :=
  Sync.mkSyncError (id op) message (retryCount op <? Sync.MAX_RETRIES)%nat.

Section Drains.

Variable World : Type.
Variable fetch : Sync.Request -> World -> Sync.Fetched * World.

(** The device after [k] successive sync invocations. *)
Definition drains (k : nat) (env : Sync.Env World) : Sync.Env World :=
  Nat.iter k (fun e => fst (Sync.syncPendingOperations World fetch e)) env.

(** The operations a drain handles before the one with id [n]: those ahead
    of it in the snapshot. *)
Fixpoint ahead (n : nat) (l : list PendingOperation) : list PendingOperation :=
  match l with
  | [] => []
  | o :: l' => if decide (id o = n) then [] else o :: ahead n l'
  end.

(** The device and its surroundings at the moment a drain of [env] comes to
    dispatch [op]. *)
Definition reached (op : PendingOperation) (env : Sync.Env World) : Sync.Env World :=
  fst (fold_left (Sync.turn World fetch)
         (ahead (id op) (Dexie.getPendingOperations (Sync.pendingOps env)))
         (env, Sync.emptyResult)).

(** How the dispatch of [op] ends when the drain of [env] comes to it. *)
Definition dispatchEnds (op : PendingOperation) (env : Sync.Env World)
  : Sync.completion :=
  Sync.settle (fst (fetch (Sync.requestOf op) (Sync.world (reached op env))))
    (fallbackOf op).

(** What a drain of [env] does about a failure of [op] with message [m]: the
    failure is reported with [retryable = (retryCount < 3)]; while
    [retryCount < 3] the operation stays queued with [retryCount + 1] and the
    back-off delay is waited after its request; from [retryCount = 3] on the
    operation is removed. *)
Definition retriedThenDropped (op : PendingOperation) (m : string)
    (env : Sync.Env World) : Prop :=
  let after := Sync.syncPendingOperations World fetch env in
  Sync.mkSyncError (id op) m (retryCount op <? Sync.MAX_RETRIES)%nat
    ∈ Sync.errors (snd after)
  /\ ((retryCount op < 3)%nat ->
        rowsWithId (id op) (Sync.pendingOps (fst after))
        = [Dexie.withRetryCount (retryCount op + 1) op]
        /\ exists tr1 tr2,
             Sync.trace (fst after)
             = tr1 ++ [Sync.Fetch (Sync.requestOf op);
                       Sync.Wait (Sync.RETRY_DELAY_MS * 2 ^ retryCount op)] ++ tr2)
  /\ ((3 <= retryCount op)%nat ->
        rowsWithId (id op) (Sync.pendingOps (fst after)) = []).

(** The [k+1]-th sync invocation reports a failure of operation [n]. *)
Definition failsInDrain (k n : nat) (env : Sync.Env World) : Prop :=
  exists e,
    e ∈ Sync.errors (snd (Sync.syncPendingOperations World fetch (drains k env)))
    /\ Sync.operationId e = n.

End Drains.

End SyncSpec.

(** The engine against the server of the sources: a world made of the
    server's store and clock and of the session of the device.  A PUT to
    /api/passes/update is answered by [UpdateRoute.PUT] and a PATCH to
    /api/passes/status by [StatusRoute.PATCH]; each request reads the clock,
    which then moves on.  What the rest of the server does with a request
    (create-batch, events/create and whatever else is deployed) is left
    open: it is a parameter of the world. *)

Module Site.

Record Site : Type := mkSite {
  store : passes;
  clock : Z;
  signedIn : bool
}.

(** [response.ok]: a status in the range 200-299. *)
Definition statusOk (n : nat) : bool := (200 <=? n)%nat && (n <? 300)%nat.

Section Server.

Variable elsewhere : Sync.Request -> Site -> Sync.Fetched * Site.

Definition serve (r : Sync.Request) (w : Site) : Sync.Fetched * Site :=
  if decide (Sync.url r = "/api/passes/update" /\ Sync.method r = "PUT") then
    let '(db, answer) := UpdateRoute.PUT (store w) (clock w) (Sync.body r) in
    (Sync.Resolved
       {| Sync.ok := statusOk (UpdateRoute.status answer);
          Sync.json := Sync.Data (UpdateRoute.error answer) |},
     {| store := db; clock := clock w + 1; signedIn := signedIn w |})
  else if decide (Sync.url r = "/api/passes/status" /\ Sync.method r = "PATCH") then
    let '(db, answer) :=
      StatusRoute.PATCH (store w) (clock w) (signedIn w) (Sync.body r) in
    (Sync.Resolved
       {| Sync.ok := statusOk (StatusRoute.status answer);
          Sync.json := Sync.Data (StatusRoute.error answer) |},
     {| store := db; clock := clock w + 1; signedIn := signedIn w |})
  else elsewhere r w.

End Server.

(** A device that cannot reach anything. *)
Definition noNetwork (r : Sync.Request) (w : unit) : Sync.Fetched * unit :=
  (Sync.Rejected "Failed to fetch", w).

(** A server of which only the two update endpoints can be reached. *)
Definition updatesOnly : Sync.Request -> Site -> Sync.Fetched * Site :=
  serve (fun r w => (Sync.Rejected "Failed to fetch", w)).

(** The request of [op] names the pass [s]. *)
Definition names (s : string) (op : PendingOperation) : Prop :=
  Sync.body (Sync.requestOf op) !! "passId" = Some (VStr s) /\ s ≠ "".

(** What the status endpoint wants before it looks the pass up: a session,
    and a [status] that is ['used'] or ['unused']. *)
Definition admitted (op : PendingOperation) (w : Site) : Prop :=
  signedIn w = true
  /\ (Sync.body (Sync.requestOf op) !! "status" = Some (VStr "used")
      \/ Sync.body (Sync.requestOf op) !! "status" = Some (VStr "unused")).

End Site.

(** Sample data used to exercise the statements. *)

Module Samples.

Definition freshPass : Pass :=
  {| updatedAt := 100;
     fields := <["status" := VStr "unused"]> (<["name" := VStr "Bela"]> ∅) |}.

Definition usedPass : Pass :=
  {| updatedAt := 100;
     fields := <["status" := VStr "used"]> (<["usedAt" := VDate 100]> ∅) |}.

Definition oneFresh : passes := <["VIS-0001" := freshPass]> ∅.

Definition oneUsed : passes := <["VIS-0001" := usedPass]> ∅.

(** [update-status] of VIS-0001 to ['used'], captured at instant [t]. *)
Definition markUsed (n : nat) (t : Z) : PendingOperation :=
  {| id := n; type := UpdateStatus; passId := Some "VIS-0001"; eventId := None;
     payload := <["status" := VStr "used"]> ∅; createdAt := t; retryCount := 0 |}.

(** [update-pass] of pass [s] with a new name, captured at instant [t]. *)
Definition rename (n : nat) (s name : string) (t : Z) : PendingOperation :=
  {| id := n; type := UpdatePass; passId := Some s; eventId := None;
     payload := <["name" := VStr name]> ∅; createdAt := t; retryCount := 0 |}.

(** An operation as handed to [queueOperation], captured at instant [t]. *)
Definition captured (t : Z) : PendingOperation :=
  {| id := 0; type := UpdatePass; passId := Some "VIS-0001"; eventId := None;
     payload := ∅; createdAt := t; retryCount := 0 |}.

(** A device with one freshly queued operation and no network. *)
Definition cutOff : Sync.Env unit :=
  {| Sync.pendingOps := DexieSpec.queueAll [captured 10];
     Sync.world := tt;
     Sync.trace := [] |}.

(** A device whose queue holds a rename of VIS-0404, facing a server that
    only knows VIS-0001. *)
Definition strayRename (retries : nat) : Sync.Env Site.Site :=
  {| Sync.pendingOps :=
       {| Dexie.rows :=
            [Dexie.withRetryCount retries (rename 1 "VIS-0404" "Chitra" 50)];
          Dexie.nextId := 2 |};
     Sync.world :=
       {| Site.store := oneFresh; Site.clock := 500; Site.signedIn := true |};
     Sync.trace := [] |}.

(** A request body that names VIS-0001 and gives only a name. *)
Definition nameOnly : obj :=
  <["passId" := VStr "VIS-0001"]> (<["name" := VStr "Asha"]> ∅).

(** A pass with all visitor fields filled in, marked as used at 90. *)
Definition filledPass : Pass :=
  {| updatedAt := 100;
     fields :=
       <["status" := VStr "used"]>
         (<["usedAt" := VDate 90]>
            (<["name" := VStr "Bela"]>
               (<["mobile" := VStr "9000000001"]>
                  (<["city" := VStr "Pune"]>
                     (<["age" := VNum 41]> ∅))))) |}.

Definition oneFilled : passes := <["VIS-0001" := filledPass]> ∅.

(** [update-status] of pass [s] to ['used'], captured at instant [t]. *)
Definition checkIn (n : nat) (s : string) (t : Z) : PendingOperation :=
  {| id := n; type := UpdateStatus; passId := Some s; eventId := None;
     payload := <["status" := VStr "used"]> ∅; createdAt := t; retryCount := 0 |}.

(** A device whose queue holds a check-in of VIS-0404, facing a server that
    only knows VIS-0001. *)
Definition strayCheckIn : Sync.Env Site.Site :=
  {| Sync.pendingOps :=
       {| Dexie.rows := [checkIn 1 "VIS-0404" 50]; Dexie.nextId := 2 |};
     Sync.world :=
       {| Site.store := oneFresh; Site.clock := 500; Site.signedIn := true |};
     Sync.trace := [] |}.



(** A dashboard that knows it is offline, with one operation counted. *)
Definition knownOffline : Dashboard.State :=
  {| Dashboard.pendingOpsCount := 1; Dashboard.offline := true;
     Dashboard.syncing := false; Dashboard.syncMessage := None |}.

(** A dashboard that shows the "Sync Now" button, with one operation
    counted. *)
Definition showsSyncNow : Dashboard.State :=
  {| Dashboard.pendingOpsCount := 1; Dashboard.offline := false;
     Dashboard.syncing := false; Dashboard.syncMessage := None |}.

End Samples.


(** * Vocabulary of the further properties *)

Module BatchSpec.
Import SyncRoute.



End BatchSpec.

Module QueueSpec.

(** The tables the application can reach: from the empty table by queueing,
    removing and updating retry counts. *)
Inductive built : Dexie.Table -> Prop :=
  | built_empty : built Dexie.emptyTable
  | built_queue operation t :
      built t -> built (fst (Dexie.queueOperation operation t))
  | built_remove n t :
      built t -> built (Dexie.removePendingOperation n t)
  | built_update n retry t :
      built t -> built (Dexie.updatePendingOperationRetryCount n retry t).

End QueueSpec.

Module EngineSpec.

(** The back-off waits of a trace, in order. *)
Definition waits (tr : list Sync.Event) : list nat :=
  omap (fun e => match e with Sync.Wait ms => Some ms | Sync.Fetch _ => None end) tr.

(** The failures a result reports as retryable. *)
Definition retryables (r : Sync.SyncResult) : list Sync.SyncError :=
  filter (fun e => Sync.retryable e = true) (Sync.errors r).

(** Every request is answered with an ok response. *)
Definition answersOk {World : Type}
    (fetch : Sync.Request -> World -> Sync.Fetched * World) : Prop :=
  forall r w, exists response,
    fst (fetch r w) = Sync.Resolved response /\ Sync.ok response = true.

(** A server that accepts everything. *)
Definition accepting (r : Sync.Request) (w : unit) : Sync.Fetched * unit :=
  (Sync.Resolved {| Sync.ok := true; Sync.json := Sync.Data None |}, w).

End EngineSpec.

Module DeliverySpec.

(** The operation is an update-pass whose request names pass [s]. *)
Definition addresses (s : string) (op : PendingOperation) : Prop :=
  type op = UpdatePass /\ Sync.withPassId op !! "passId" = Some (VStr s).

End DeliverySpec.

Module MoreSamples.

(** A request body that names VIS-0001 and gives a mobile number only. *)
Definition mobileOnly : obj :=
  <["passId" := VStr "VIS-0001"]> (<["mobile" := VStr "9000000002"]> ∅).

(** [update-status] of VIS-0001 back to ['unused'], captured at instant [t]. *)
Definition markUnused (n : nat) (t : Z) : PendingOperation :=
  {| id := n; type := UpdateStatus; passId := Some "VIS-0001"; eventId := None;
     payload := <["status" := VStr "unused"]> ∅; createdAt := t; retryCount := 0 |}.

(** A device with three queued operations, captured at 30, 10 and 20. *)
Definition threeQueued : Sync.Env unit :=
  {| Sync.pendingOps :=
       DexieSpec.queueAll
         [Samples.captured 30; Samples.captured 10; Samples.captured 20];
     Sync.world := tt;
     Sync.trace := [] |}.

(** A device whose queue holds a rename of VIS-0001, facing a server that
    has VIS-0001. *)
Definition pendingRename : Sync.Env Site.Site :=
  {| Sync.pendingOps :=
       {| Dexie.rows := [Samples.rename 1 "VIS-0001" "Asha" 50];
          Dexie.nextId := 2 |};
     Sync.world :=
       {| Site.store := Samples.oneFresh; Site.clock := 500;
          Site.signedIn := true |};
     Sync.trace := [] |}.

(** A table reached by queueing two operations. *)
Definition twoQueued : Dexie.Table :=
  DexieSpec.queueAll [Samples.captured 30; Samples.captured 10].

(** Five passes to print. *)
Definition fivePasses : list PdfGenerator.PassForPDF :=
  (fun n => PdfGenerator.mkPassForPDF n "data:image/png;base64,AAAA" None None)
    <$> ["VIS-0001"; "VIS-0002"; "VIS-0003"; "VIS-0004"; "VIS-0005"].

End MoreSamples.
(** * Properties *)

(** ** Timestamp reconciliation on the server *)

Module SyncRouteFacts.
Import SyncRoute SyncRouteSpec.

Lemma updateOne_found (db : passes) (s : string) (p : Pass) (f : Pass -> Pass) :
  db !! s = Some p -> updateOne db (Some s) f = (<[s := f p]> db, 1%nat).
Proof. intros H. unfold updateOne. by rewrite H. Qed.

Lemma hasPayload_lacks (op : SyncOperation) :
  hasPayload op <-> lacksPayload op = false.
Proof.
  unfold hasPayload, lacksPayload. split.
  - intros (v & -> & Hv). by destruct v.
  - destruct (payload op) as [v |]; [| discriminate].
    intros H. exists v. split; [done |]. by intros ->.
Qed.

(** An update operation against a stored pass: skipped when the record is
    newer, failed when it is not and there is no payload, applied
    otherwise. *)
Lemma process_stored (db : passes) (op : SyncOperation) (s : string) (p : Pass) :
  isUpdate op -> passId op = Some s -> db !! s = Some p ->
  processOperation db op =
    if laterThan (Instant (updatedAt p)) (createdAt op)
    then mkOutcome db Returned (logged (processOperation db op))
    else if lacksPayload op
         then mkOutcome db (Thrown (refusal op)) []
         else mkOutcome (<[s := written op p]> db) Returned [].
Proof.
  intros [Ht | Ht] Hid Hp; unfold processOperation, written, lacksPayload, refusal;
    rewrite Ht; unfold processUpdatePass, processUpdateStatus; rewrite Hid;
    cbn [findOne]; rewrite Hp; cbn zeta;
    (destruct (laterThan (Instant (updatedAt p)) (createdAt op)); [reflexivity |]);
    destruct (payload op) as [[] |];
    cbn [updateDataOf statusOf properties from_option];
    rewrite ?(updateOne_found db s p _ Hp); reflexivity.
Qed.


Lemma written_updatedAt (op : SyncOperation) (p : Pass) :
  updatedAt (written op p) = bsonDate (createdAt op).
Proof. unfold written. by destruct (type op). Qed.





(** ** Marking a used pass as used again *)

(** C2 (the handler at a failing input). VIS-0001 is already [used], marked
    at instant 100.  A later update-status to ['used'], captured at 200, is not
    rejected: [processUpdateStatus] returns normally, the batch counts it as
    processed with no error, and the pass's [usedAt] moves from 100 to 200. *)
Lemma duplicate_used_is_applied :
  let op := posted (Samples.markUsed 7 200) in
  let out := processUpdateStatus Samples.oneUsed op in
  fields Samples.usedPass !! "status" = Some (VStr "used")
  /\ fields Samples.usedPass !! "usedAt" = Some (VDate 100)
  /\ ending out = Returned
  /\ (fields <$> store out !! "VIS-0001") ≫= (.!! "usedAt") = Some (VDate 200)
  /\ snd (POST Samples.oneUsed [op])
     = {| success := true; processed := 1; failed := 0; errors := [] |}.
Proof. vm_compute. repeat split. Qed.

(** ** Partial failure of a batch *)

Lemma findOne_dom (db db' : passes) (x : option string) :
  dom db' = dom db -> is_Some (findOne db' x) <-> is_Some (findOne db x).
Proof.
  intros Hdom. destruct x as [s |]; simpl; [| done].
  by rewrite <- !elem_of_dom, Hdom.
Qed.

Lemma process_missing (db : passes) (op : SyncOperation) :
  isUpdate op -> findOne db (passId op) = None ->
  processOperation db op = mkOutcome db (Thrown (notFound op)) [].
Proof.
  intros [Ht | Ht] Hnone; unfold processOperation; rewrite Ht;
    unfold processUpdatePass, processUpdateStatus; by rewrite Hnone.
Qed.

Lemma process_create (db : passes) (op : SyncOperation) :
  ~ isUpdate op ->
  store (processOperation db op) = db
  /\ exists m, ending (processOperation db op) = Thrown m.
Proof.
  unfold isUpdate, processOperation. intros Hno.
  destruct (type op); try (exfalso; apply Hno; tauto); cbn; eauto.
Qed.

(** What an operation leaves in the store: the store as it was, or the
    record of its pass replaced by what it writes. *)
Lemma process_store (db : passes) (op : SyncOperation) :
  store (processOperation db op) = db
  \/ exists s p, passId op = Some s /\ db !! s = Some p /\ isUpdate op
                 /\ laterThan (Instant (updatedAt p)) (createdAt op) = false
                 /\ lacksPayload op = false
                 /\ store (processOperation db op) = <[s := written op p]> db.
Proof.
  destruct (decide (isUpdate op)) as [Hu | Hno];
    [| left; by apply process_create].
  destruct (findOne db (passId op)) as [p |] eqn:Hf;
    [| left; by rewrite process_missing].
  destruct (passId op) as [s |] eqn:Hid; [| discriminate]. cbn in Hf.
  rewrite (process_stored db op s p Hu Hid Hf).
  destruct (laterThan _ _) eqn:Hl; [by left |].
  destruct (lacksPayload op) eqn:Hpl; [by left |].
  right. exists s, p. by repeat split.
Qed.

Lemma process_store_dom (db : passes) (op : SyncOperation) :
  dom (store (processOperation db op)) = dom db.
Proof.
  destruct (process_store db op) as [-> | (s & p & _ & Hp & _ & _ & _ & ->)];
    [done |].
  apply dom_insert_lookup_L; eauto.
Qed.

Lemma fold_step_dom (ops : list SyncOperation) (db : passes) (r : Results) :
  dom (fst (fold_left step ops (db, r))) = dom db.
Proof.
  revert db r. induction ops as [| o ops IH]; intros db r; cbn [fold_left]; [done |].
  unfold step at 2.
  destruct (ending (processOperation db o)); rewrite IH;
    apply process_store_dom.
Qed.

Lemma tally_assoc (r r1 r2 : Results) :
  tally (tally r r1) r2 = tally r (tally r1 r2).
Proof.
  unfold tally. cbn [success processed failed errors].
  rewrite <- app_assoc. f_equal; lia.
Qed.

Lemma step_from (db : passes) (r : Results) (o : SyncOperation) :
  step (db, r) o
  = (fst (step (db, initialResults) o), tally r (snd (step (db, initialResults) o))).
Proof.
  unfold step. destruct (ending (processOperation db o)); cbn [fst snd];
    f_equal; unfold tally; cbn [success processed failed errors initialResults app];
    rewrite ?app_nil_r; f_equal; lia.
Qed.

(** The counters of a run add up to those it started with. *)
Lemma run_from (l : list SyncOperation) (db : passes) (r : Results) :
  fold_left step l (db, r)
  = (fst (fold_left step l (db, initialResults)),
     tally r (snd (fold_left step l (db, initialResults)))).
Proof.
  revert db r. induction l as [| o l IH]; intros db r; cbn [fold_left].
  - cbn [fst snd]. f_equal. unfold tally.
    cbn [success processed failed errors initialResults].
    rewrite !Nat.add_0_r, app_nil_r. by destruct r.
  - rewrite (step_from db r o).
    destruct (step (db, initialResults) o) as [d1 r1]. cbn [fst snd].
    rewrite (IH d1 (tally r r1)), (IH d1 r1). cbn [fst snd].
    by rewrite tally_assoc.
Qed.

(** After a run from the initial counters every operation is counted once,
    and [errors] has one entry per failure. *)
Lemma run_counts (l : list SyncOperation) (db : passes) :
  let r := snd (fold_left step l (db, initialResults)) in
  (processed r + failed r = length l)%nat /\ length (errors r) = failed r.
Proof.
  revert db. induction l as [| o l IH]; intros db; cbn [fold_left]; [done |].
  cbn zeta. destruct (step (db, initialResults) o) as [d1 r1] eqn:Hs.
  rewrite run_from. cbn [snd]. destruct (IH d1) as [Hn He].
  assert (Hr1 : (processed r1 + failed r1 = 1)%nat
                /\ length (errors r1) = failed r1).
  { unfold step in Hs.
    destruct (ending (processOperation db o)); injection Hs as _ <-; by cbn. }
  unfold tally. cbn [processed failed errors length].
  rewrite ?length_app. lia.
Qed.

(** C5. In a batch of N operations in which operation [k] targets a pass that
    does not exist and every other operation succeeds (the batch without [k]
    reports no failure), the others are all processed, [k] alone is reported
    in [errors] under its [operationId], and the answer has
    [processed = N - 1], [failed = 1] and [success = (failed == 0)], here
    [false].  The store ends as if [k] had not been in the batch. *)
Theorem partial_batch_failure
    (db : passes) (l1 l2 : list SyncOperation) (k : SyncOperation) :
  isUpdate k -> findOne db (passId k) = None ->
  failed (snd (POST db (l1 ++ l2))) = 0%nat ->
  let N := length (l1 ++ k :: l2) in
  let answer := snd (POST db (l1 ++ k :: l2)) in
  processed answer = (N - 1)%nat
  /\ failed answer = 1%nat
  /\ errors answer = [mkOpError (id k) (notFound k)]
  /\ success answer = (failed answer =? 0)%nat
  /\ success answer = false
  /\ fst (POST db (l1 ++ k :: l2)) = fst (POST db (l1 ++ l2)).
Proof.
  intros Hu Hnone Hall N answer. subst N answer.
  revert Hall. unfold POST. rewrite !fold_left_app. cbn [fold_left].
  destruct (fold_left step l1 (db, initialResults)) as [db1 r1] eqn:Hf1.
  pose proof (run_counts l1 db) as [Hn1 He1]. rewrite Hf1 in Hn1, He1.
  cbn [snd] in Hn1, He1.
  assert (Hk : processOperation db1 k = mkOutcome db1 (Thrown (notFound k)) []).
  { apply process_missing; [done |].
    destruct (findOne db1 (passId k)) eqn:Hf; [| done].
    assert (is_Some (findOne db (passId k))) as [? ?]; [| congruence].
    apply (findOne_dom db db1); [| eauto].
    pose proof (fold_step_dom l1 db initialResults) as Hd. by rewrite Hf1 in Hd. }
  assert (Hstep : step (db1, r1) k
            = (db1, {| success := success r1; processed := processed r1;
                       failed := S (failed r1);
                       errors := errors r1 ++ [mkOpError (id k) (notFound k)] |})).
  { unfold step. by rewrite Hk. }
  rewrite Hstep, (run_from l2 db1 r1).
  rewrite (run_from l2 db1 {| success := _; processed := _; failed := S _;
                              errors := _ |}).
  pose proof (run_counts l2 db1) as [Hn2 He2].
  destruct (fold_left step l2 (db1, initialResults)) as [db2 r2].
  cbn [fst snd tally processed failed errors success] in *.
  intros Hall.
  assert (failed r1 = 0%nat /\ failed r2 = 0%nat) as [Hz1 Hz2] by lia.
  rewrite Hz1, Hz2 in *.
  apply nil_length_inv in He1, He2. rewrite He1, He2.
  rewrite !length_app. cbn [length app Nat.add Nat.eqb].
  repeat split; lia.
Qed.

(** A batch of three in which the second operation names VIS-0404. *)
Lemma partial_batch_failure_witness :
  let l1 := [posted (Samples.rename 1 "VIS-0001" "Asha" 150)] in
  let k := posted (Samples.rename 2 "VIS-0404" "Chitra" 160) in
  let l2 := [posted (Samples.markUsed 3 170)] in
  let answer := snd (POST Samples.oneFresh (l1 ++ k :: l2)) in
  processed answer = 2%nat
  /\ failed answer = 1%nat
  /\ errors answer = [mkOpError 2 "Pass VIS-0404 not found"].
Proof.
  pose proof (partial_batch_failure Samples.oneFresh
                [posted (Samples.rename 1 "VIS-0001" "Asha" 150)]
                [posted (Samples.markUsed 3 170)]
                (posted (Samples.rename 2 "VIS-0404" "Chitra" 160))
                (or_introl eq_refl) eq_refl eq_refl) as H.
  simpl in H.
  destruct H as (Hp & Hf & He & _).
  repeat split; assumption.
Defined.

End SyncRouteFacts.

(** ** The visitor update endpoint *)

Module UpdateRouteFacts.
Import UpdateRoute.

Ltac not_listed :=
  repeat (apply not_elem_of_cons; split; [done |]); apply not_elem_of_nil.

Ltac read_insert :=
  repeat (rewrite lookup_insert_eq || rewrite lookup_insert_ne by done);
  try done.

(** C10. A PUT to /api/passes/update whose [passId] names a stored pass
    overwrites [name], [mobile], [city] and [age] of that pass with the values
    of the request, whatever was stored: a property missing from the request
    is stored as [null].  Every other property of the pass ([status],
    [createdAt], [usedAt], ...) and every other pass is left as it was, and
    the pass stays under its [passId]. *)
Theorem put_overwrites_visitor_fields
    (db : passes) (now : Z) (body : obj) (s : string) (p : Pass) :
  body !! "passId" = Some (VStr s) -> s ≠ "" -> db !! s = Some p ->
  let db' := fst (PUT db now body) in
  exists p',
    db' !! s = Some p'
    /\ fields p' !! "name" = Some (bson (body !! "name"))
    /\ fields p' !! "mobile" = Some (bson (body !! "mobile"))
    /\ fields p' !! "city" = Some (bson (body !! "city"))
    /\ fields p' !! "age" = Some (bson (body !! "age"))
    /\ (forall k, k ∈ ["name"; "mobile"; "city"; "age"] ->
                  body !! k = None -> fields p' !! k = Some VNull)
    /\ (forall k, k ∉ ["name"; "mobile"; "city"; "age"] ->
                  fields p' !! k = fields p !! k)
    /\ fields p' !! "status" = fields p !! "status"
    /\ fields p' !! "createdAt" = fields p !! "createdAt"
    /\ fields p' !! "usedAt" = fields p !! "usedAt"
    /\ dom db' = dom db
    /\ (forall s', s' ≠ s -> db' !! s' = db !! s').
Proof.
  intros Hid Hne Hp db'. subst db'. unfold PUT.
  rewrite Hid. cbn [truthy findByValue].
  assert (String.eqb s "" = false) as -> by (by apply String.eqb_neq).
  cbn [negb]. rewrite Hp, (SyncRouteFacts.updateOne_found db s p _ Hp).
  cbn [Nat.eqb fst].
  eexists. split; [apply lookup_insert_eq |]. simpl.
  assert (Hother : forall k, k ∉ ["name"; "mobile"; "city"; "age"] ->
            (<["name":=bson (body !! "name")]>
               (<["mobile":=bson (body !! "mobile")]>
                  (<["city":=bson (body !! "city")]>
                     (<["age":=bson (body !! "age")]> (fields p)))) : obj) !! k
            = fields p !! k).
  { intros k Hk. rewrite !lookup_insert_ne; [done | | | |];
      intros <-; apply Hk; repeat constructor. }
  repeat split.
  - read_insert.
  - read_insert.
  - read_insert.
  - read_insert.
  - intros k Hk Hnone.
    repeat (apply elem_of_cons in Hk as [-> | Hk]);
      [| | | | by apply elem_of_nil in Hk]; read_insert; by rewrite Hnone.
  - exact Hother.
  - apply Hother. not_listed.
  - apply Hother. not_listed.
  - apply Hother. not_listed.
  - apply dom_insert_lookup_L; eauto.
  - intros s' Hs'. by rewrite lookup_insert_ne.
Qed.

Lemma PUT_missing (db : passes) (now : Z) (body : obj) (s : string) :
  body !! "passId" = Some (VStr s) -> s ≠ "" -> db !! s = None ->
  PUT db now body = (db, mkAnswer 404 (Some "Pass not found") None).
Proof.
  intros Hid Hne Hnone. unfold PUT. rewrite Hid. cbn [truthy findByValue].
  assert (String.eqb s "" = false) as -> by (by apply String.eqb_neq).
  cbn [negb]. by rewrite Hnone.
Qed.

Lemma PUT_found (db : passes) (now : Z) (body : obj) (s : string) (p : Pass) :
  body !! "passId" = Some (VStr s) -> s ≠ "" -> db !! s = Some p ->
  let p' := setVisitor (body !! "name") (body !! "mobile") (body !! "city")
              (body !! "age") now p in
  PUT db now body = (<[s := p']> db, mkAnswer 200 None (Some (view s p'))).
Proof.
  intros Hid Hne Hp p'. unfold PUT. rewrite Hid. cbn [truthy findByValue].
  assert (String.eqb s "" = false) as -> by (by apply String.eqb_neq).
  cbn [negb]. rewrite Hp, (SyncRouteFacts.updateOne_found db s p _ Hp).
  cbn [Nat.eqb]. by rewrite lookup_insert_eq.
Qed.

Lemma PUT_dom (db : passes) (now : Z) (body : obj) :
  dom (fst (PUT db now body)) = dom db.
Proof.
  unfold PUT. destruct (negb (truthy (body !! "passId"))); [done |].
  destruct (body !! "passId") as [[| | | s | | |] |]; try done.
  cbn [findByValue]. destruct (db !! s) as [p |] eqn:Hp; [| done].
  rewrite (SyncRouteFacts.updateOne_found db s p _ Hp). cbn [Nat.eqb fst].
  apply dom_insert_lookup_L; eauto.
Qed.

(** A request that gives only a name, against a pass with all fields set. *)
Lemma put_overwrites_visitor_fields_witness :
  let db' := fst (PUT Samples.oneFilled 500 Samples.nameOnly) in
  exists p',
    db' !! "VIS-0001" = Some p'
    /\ fields p' !! "name" = Some (VStr "Asha")
    /\ fields p' !! "mobile" = Some VNull
    /\ fields p' !! "usedAt" = Some (VDate 90).
Proof.
  destruct (put_overwrites_visitor_fields Samples.oneFilled 500 Samples.nameOnly
              "VIS-0001" Samples.filledPass eq_refl ltac:(done) eq_refl)
    as (p' & Hp' & Hname & Hmobile & _ & _ & _ & _ & _ & _ & Hused & _).
  exists p'. repeat split; [exact Hp' | exact Hname | exact Hmobile | exact Hused].
Defined.

End UpdateRouteFacts.

(** ** The pending-operation queue *)

Module DexieFacts.
Import Dexie DexieSpec.

Lemma indexLeb_le (a b : PendingOperation) : indexLeb a b = true <-> indexLe a b.
Proof.
  unfold indexLeb, indexLe.
  rewrite orb_true_iff, andb_true_iff, Z.ltb_lt, Z.eqb_eq, Nat.leb_le. tauto.
Qed.

Lemma indexLe_total (a b : PendingOperation) :
  indexLeb a b = false -> indexLe b a.
Proof.
  intros H. unfold indexLe.
  destruct (Z.lt_trichotomy (createdAt a) (createdAt b)) as [Hlt | [Heq | Hgt]].
  - assert (indexLeb a b = true) by (apply indexLeb_le; by left). congruence.
  - destruct (le_lt_dec (id a) (id b)) as [Hle | Hlt].
    + assert (indexLeb a b = true) by (apply indexLeb_le; by right). congruence.
    + right. split; [done | lia].
  - by left.
Qed.

Lemma indexLe_trans (a b c : PendingOperation) :
  indexLe a b -> indexLe b c -> indexLe a c.
Proof.
  unfold indexLe.
  intros [? | [? ?]] [? | [? ?]]; [left | left | left | right]; lia.
Qed.

Lemma indexInsert_perm (op : PendingOperation) (l : list PendingOperation) :
  Permutation (indexInsert op l) (op :: l).
Proof.
  induction l as [| x l IH]; simpl; [done |].
  destruct (indexLeb op x); [done |].
  rewrite IH. apply perm_swap.
Qed.

Lemma orderBy_perm (l : list PendingOperation) :
  Permutation (orderByCreatedAt l) l.
Proof.
  induction l as [| x l IH]; simpl; [done |].
  by rewrite indexInsert_perm, IH.
Qed.

Lemma indexInsert_sorted (op : PendingOperation) (l : list PendingOperation) :
  StronglySorted indexLe l -> StronglySorted indexLe (indexInsert op l).
Proof.
  induction 1 as [| x l Hs IH Hx]; simpl.
  - repeat constructor.
  - destruct (indexLeb op x) eqn:Hle.
    + apply indexLeb_le in Hle. constructor; [by constructor |].
      constructor; [done |].
      eapply Forall_impl; [exact Hx |]. intros y Hy. by eapply indexLe_trans.
    + apply indexLe_total in Hle. constructor; [done |].
      rewrite (indexInsert_perm op l). by constructor.
Qed.

Lemma orderBy_sorted (l : list PendingOperation) :
  StronglySorted indexLe (orderByCreatedAt l).
Proof.
  induction l as [| x l IH]; simpl; [constructor | by apply indexInsert_sorted].
Qed.

(** C6. Whatever the state of the queue, [getPendingOperations] returns all
    the pending operations (each row once, nothing else) in ascending order
    of [createdAt], operations with the same [createdAt] in the order of their
    enqueue sequence numbers. *)
Theorem pending_operations_chronological (t : Table) :
  Permutation (getPendingOperations t) (rows t)
  /\ StronglySorted indexLe (getPendingOperations t).
Proof. split; [apply orderBy_perm | apply orderBy_sorted]. Qed.

(** Operations captured at 30, 10, 20 and 10 and queued in that order come
    back as 10 (second), 10 (fourth), 20, 30. *)
Example out_of_order_enqueue :
  getPendingOperations
    (queueAll [Samples.captured 30; Samples.captured 10;
               Samples.captured 20; Samples.captured 10])
  = [withId 2 (Samples.captured 10); withId 4 (Samples.captured 10);
     withId 3 (Samples.captured 20); withId 1 (Samples.captured 30)].
Proof. reflexivity. Qed.

End DexieFacts.

(** ** The client sync engine *)

Module SyncFacts.
Import Sync SyncSpec.

Section Engine.

Variable World : Type.
Variable fetch : Request -> World -> Fetched * World.

Local Abbreviation Env := (Sync.Env World).
Local Abbreviation processSingleOperation := (Sync.processSingleOperation World fetch).
Local Abbreviation turn := (Sync.turn World fetch).
Local Abbreviation syncPendingOperations := (Sync.syncPendingOperations World fetch).

(** Every operation is dispatched by one request to its own endpoint; the
    queue is not touched by the dispatch itself. *)
Lemma dispatch_effect (op : PendingOperation) (env : Env) :
  processSingleOperation op env
  = ({| pendingOps := pendingOps env;
        world := snd (fetch (requestOf op) (world env));
        trace := trace env ++ [Fetch (requestOf op)] |},
     settle (fst (fetch (requestOf op) (world env))) (fallbackOf op)).
Proof.
  unfold Sync.processSingleOperation, requestOf, fallbackOf.
  destruct (type op);
    unfold Sync.syncUpdatePass, Sync.syncCreatePass, Sync.syncUpdateStatus,
      Sync.syncCreateEvent, Sync.send;
    by destruct (fetch _ (world env)).
Qed.

Lemma turn_tallies (env : Env) (r : SyncResult) (op : PendingOperation) (n : nat) :
  tallies n r -> tallies (S n) (snd (turn (env, r) op)).
Proof.
  intros [Hn He]. unfold Sync.turn. rewrite dispatch_effect.
  destruct (settle _ _); [| destruct (retryCount op <? MAX_RETRIES)%nat];
    simpl; unfold tallies; simpl; rewrite ?length_app; simpl; lia.
Qed.

Lemma drain_tallies (l : list PendingOperation) (env : Env) (r : SyncResult) (n : nat) :
  tallies n r -> tallies (n + length l) (snd (fold_left turn l (env, r))).
Proof.
  revert env r n. induction l as [| op l IH]; intros env r n H;
    cbn [fold_left length].
  - by rewrite Nat.add_0_r.
  - destruct (turn (env, r) op) as [env' r'] eqn:Ht.
    replace (n + S (length l))%nat with (S n + length l)%nat by lia.
    apply IH. pose proof (turn_tallies env r op n H) as H'. by rewrite Ht in H'.
Qed.

(** C9. The result of a drain: [synced + failed] is the number of pending
    operations read at the start, [errors] has exactly one entry per failed
    operation, and [success] is true exactly when nothing failed. *)
Theorem sync_result_accounting (env : Env) :
  let result := snd (syncPendingOperations env) in
  (synced result + failed result
   = length (Dexie.getPendingOperations (pendingOps env)))%nat
  /\ length (errors result) = failed result
  /\ (success result = true <-> failed result = 0%nat).
Proof.
  unfold Sync.syncPendingOperations.
  destruct (length (Dexie.getPendingOperations (pendingOps env)) =? 0)%nat eqn:He.
  - apply Nat.eqb_eq in He. rewrite He. by simpl.
  - pose proof (drain_tallies (Dexie.getPendingOperations (pendingOps env))
                  env emptyResult 0) as H.
    destruct (fold_left turn _ (env, emptyResult)) as [env' r]. simpl in *.
    destruct H as [Hn Hl]; [by split |].
    repeat split; try done.
    + by intros ?%Nat.eqb_eq.
    + by intros ?%Nat.eqb_eq.
Qed.

(** *** The queue under removals and retry updates *)

Lemma rowsWithId_remove_ne (n m : nat) (t : Dexie.Table) :
  n ≠ m -> rowsWithId n (Dexie.removePendingOperation m t) = rowsWithId n t.
Proof.
  intros Hne. unfold rowsWithId, Dexie.removePendingOperation. simpl.
  induction (Dexie.rows t) as [| o l IH]; [done |].
  rewrite !filter_cons. repeat case_decide; rewrite ?filter_cons;
    repeat case_decide; try congruence; by rewrite IH.
Qed.

Lemma rowsWithId_remove_eq (n : nat) (t : Dexie.Table) :
  rowsWithId n (Dexie.removePendingOperation n t) = [].
Proof.
  unfold rowsWithId, Dexie.removePendingOperation. simpl.
  induction (Dexie.rows t) as [| o l IH]; [done |].
  rewrite filter_cons. case_decide; [| done].
  rewrite filter_cons. by case_decide.
Qed.

Lemma rowsWithId_update_ne (n m k : nat) (t : Dexie.Table) :
  n ≠ m ->
  rowsWithId n (Dexie.updatePendingOperationRetryCount m k t) = rowsWithId n t.
Proof.
  intros Hne. unfold rowsWithId, Dexie.updatePendingOperationRetryCount. simpl.
  induction (Dexie.rows t) as [| o l IH]; [done |].
  rewrite fmap_cons, !filter_cons.
  destruct (decide (id o = m)) as [Hm | Hm]; simpl.
  - rewrite decide_False by congruence. rewrite decide_False by congruence. done.
  - case_decide; by rewrite IH.
Qed.

Lemma rowsWithId_update_eq (n k : nat) (t : Dexie.Table) :
  rowsWithId n (Dexie.updatePendingOperationRetryCount n k t)
  = Dexie.withRetryCount k <$> rowsWithId n t.
Proof.
  unfold rowsWithId, Dexie.updatePendingOperationRetryCount. simpl.
  induction (Dexie.rows t) as [| o l IH]; [done |].
  rewrite fmap_cons, !filter_cons.
  destruct (decide (id o = n)) as [Hn | Hn]; simpl.
  - rewrite decide_True by done. f_equal. exact IH.
  - rewrite decide_False by done. exact IH.
Qed.

Lemma turn_queue (env : Env) (r : SyncResult) (op : PendingOperation) :
  pendingOps (fst (turn (env, r) op))
  = queueAfter op (snd (processSingleOperation op env)) (pendingOps env).
Proof.
  unfold Sync.turn. rewrite dispatch_effect. cbn [snd].
  destruct (settle _ _); [done |]. cbn [queueAfter].
  by destruct (retryCount op <? MAX_RETRIES)%nat.
Qed.

Lemma turn_frame (env : Env) (r : SyncResult) (op : PendingOperation) (n : nat) :
  id op ≠ n ->
  rowsWithId n (pendingOps (fst (turn (env, r) op))) = rowsWithId n (pendingOps env).
Proof.
  intros Hne. rewrite turn_queue. unfold queueAfter.
  destruct (snd _); [| destruct (retryCount op <? MAX_RETRIES)%nat];
    by rewrite ?rowsWithId_remove_ne, ?rowsWithId_update_ne.
Qed.

Lemma drain_frame (l : list PendingOperation) (st : Env * SyncResult) (n : nat) :
  Forall (fun o => id o ≠ n) l ->
  rowsWithId n (pendingOps (fst (fold_left turn l st)))
  = rowsWithId n (pendingOps (fst st)).
Proof.
  intros Hl. revert st. induction Hl as [| o l Ho _ IH]; intros [env r];
    cbn [fold_left]; [done |].
  rewrite IH. destruct (turn (env, r) o) as [env' r'] eqn:Ht.
  pose proof (turn_frame env r o n Ho) as H. by rewrite Ht in H.
Qed.

(** *** What a turn and a drain leave behind *)

Lemma turn_trace (env : Env) (r : SyncResult) (op : PendingOperation) :
  trace (fst (turn (env, r) op))
  = trace env ++ eventsOf op (snd (processSingleOperation op env)).
Proof.
  unfold Sync.turn. rewrite dispatch_effect. cbn [snd]. unfold eventsOf.
  destruct (settle _ _); [done |].
  destruct (retryCount op <? MAX_RETRIES)%nat; cbn [fst]; [| done].
  unfold Sync.wait, Sync.onQueue. cbn [trace]. by rewrite <- app_assoc.
Qed.

Lemma turn_errors (env : Env) (r : SyncResult) (op : PendingOperation) :
  errors (snd (turn (env, r) op))
  = errors r ++ match snd (processSingleOperation op env) with
                | Returned => []
                | Thrown m => [errorOf op m]
                end.
Proof.
  unfold Sync.turn. rewrite dispatch_effect. cbn [snd]. unfold errorOf.
  destruct (settle _ _); [by rewrite app_nil_r |].
  by destruct (retryCount op <? MAX_RETRIES)%nat.
Qed.

Lemma drain_trace_grows (l : list PendingOperation) (st : Env * SyncResult) :
  exists tr, trace (fst (fold_left turn l st)) = trace (fst st) ++ tr.
Proof.
  revert st. induction l as [| o l IH]; intros [env r]; cbn [fold_left].
  - exists []. by rewrite app_nil_r.
  - destruct (IH (turn (env, r) o)) as [tr Htr]. rewrite Htr, turn_trace.
    eexists. by rewrite <- app_assoc.
Qed.

(** The [errors] entries added by a run of turns carry ids of that run. *)
Lemma drain_errors_from (l : list PendingOperation) (st : Env * SyncResult) :
  exists es,
    errors (snd (fold_left turn l st)) = errors (snd st) ++ es
    /\ Forall (fun e => operationId e ∈ id <$> l) es.
Proof.
  revert st. induction l as [| o l IH]; intros [env r]; cbn [fold_left].
  - exists []. by rewrite app_nil_r.
  - destruct (IH (turn (env, r) o)) as (es & Hes & Hids).
    rewrite Hes, turn_errors. cbn [snd].
    eexists. rewrite <- app_assoc. split; [done |].
    apply Forall_app. split.
    + destruct (processSingleOperation o env).2; repeat constructor.
    + eapply Forall_impl; [exact Hids |]. intros e He. by right.
Qed.

Lemma fetches_app (tr1 tr2 : list Event) :
  fetches (tr1 ++ tr2) = fetches tr1 ++ fetches tr2.
Proof. apply omap_app. Qed.

Lemma fetches_eventsOf (op : PendingOperation) (c : completion) :
  fetches (eventsOf op c) = [requestOf op].
Proof.
  unfold eventsOf.
  destruct c; [done |]. by destruct (retryCount op <? MAX_RETRIES)%nat.
Qed.

(** A drain sends one request per operation of its snapshot, in order. *)
Lemma drain_fetches (l : list PendingOperation) (st : Env * SyncResult) :
  fetches (trace (fst (fold_left turn l st)))
  = fetches (trace (fst st)) ++ (requestOf <$> l).
Proof.
  revert st. induction l as [| o l IH]; intros [env r]; cbn [fold_left].
  - by rewrite app_nil_r.
  - rewrite IH, turn_trace, fetches_app, fetches_eventsOf, fmap_cons.
    by rewrite <- app_assoc.
Qed.

(** *** Distinct ids *)

Lemma queueAfter_distinct (op : PendingOperation) (c : completion) (t : Dexie.Table) :
  distinctIds t -> distinctIds (queueAfter op c t).
Proof.
  unfold distinctIds. intros Hnd.
  assert (Hrm : forall n, NoDup (id <$> Dexie.rows (Dexie.removePendingOperation n t))).
  { intros n. unfold Dexie.removePendingOperation. cbn [Dexie.rows].
    induction (Dexie.rows t) as [| o l IH]; [constructor |].
    rewrite fmap_cons in Hnd. apply NoDup_cons in Hnd as [Hno Hnd'].
    rewrite filter_cons. case_decide; [| by apply IH].
    rewrite fmap_cons. apply NoDup_cons. split; [| by apply IH].
    intros (x & Hx & Hin)%list_elem_of_fmap_1. apply Hno. rewrite Hx.
    apply list_elem_of_fmap_2. by apply list_elem_of_filter in Hin as [_ ?]. }
  destruct c as [| m]; cbn [queueAfter]; [apply Hrm |].
  destruct (retryCount op <? MAX_RETRIES)%nat; [| apply Hrm].
  unfold Dexie.updatePendingOperationRetryCount. cbn [Dexie.rows].
  rewrite <- list_fmap_compose.
  erewrite list_fmap_ext; [exact Hnd |].
  intros i o _. cbn. by destruct (decide (id o = id op)).
Qed.

Lemma drain_fold_distinct (l : list PendingOperation) (st : Env * SyncResult) :
  distinctIds (pendingOps (fst st)) ->
  distinctIds (pendingOps (fst (fold_left turn l st))).
Proof.
  revert st. induction l as [| o l IH]; intros [env r] H; cbn [fold_left]; [done |].
  apply IH. rewrite turn_queue. by apply queueAfter_distinct.
Qed.

Lemma rowsWithId_unique (t : Dexie.Table) (op : PendingOperation) :
  distinctIds t -> op ∈ Dexie.rows t -> rowsWithId (id op) t = [op].
Proof.
  unfold distinctIds, rowsWithId.
  induction (Dexie.rows t) as [| o l IH]; intros Hnd Hin.
  - by apply elem_of_nil in Hin.
  - rewrite fmap_cons in Hnd. apply NoDup_cons in Hnd as [Hno Hnd].
    rewrite filter_cons.
    apply elem_of_cons in Hin as [<- | Hin].
    + rewrite decide_True by done. f_equal.
      clear IH Hnd. induction l as [| x l IH]; [done |].
      rewrite filter_cons. rewrite decide_False.
      * apply IH. intros Hx. apply Hno. rewrite fmap_cons. by right.
      * intros Heq. apply Hno. rewrite fmap_cons, Heq. by left.
    + rewrite decide_False; [by apply IH |].
      intros Heq. apply Hno. rewrite Heq. by apply list_elem_of_fmap_2.
Qed.

Lemma pending_split (t : Dexie.Table) (op : PendingOperation) :
  distinctIds t -> op ∈ Dexie.rows t ->
  exists pre post,
    Dexie.getPendingOperations t = pre ++ op :: post
    /\ Forall (fun o => id o ≠ id op) pre
    /\ Forall (fun o => id o ≠ id op) post.
Proof.
  intros Hnd Hin.
  pose proof (DexieFacts.orderBy_perm (Dexie.rows t)) as Hperm.
  fold (Dexie.getPendingOperations t) in Hperm.
  assert (Hin' : op ∈ Dexie.getPendingOperations t) by (by rewrite Hperm).
  assert (Hnd' : NoDup (id <$> Dexie.getPendingOperations t)).
  { unfold distinctIds in Hnd. by rewrite Hperm. }
  apply list_elem_of_split in Hin' as (pre & post & Heq).
  exists pre, post. split; [done |].
  rewrite Heq, fmap_app, fmap_cons in Hnd'.
  apply NoDup_app in Hnd' as (_ & Hpre & Hpost).
  apply NoDup_cons in Hpost as [Hpost _].
  split; apply Forall_forall; intros o Ho Heq'.
  - apply (Hpre (id o)); [by apply list_elem_of_fmap_2 |]. rewrite Heq'. by left.
  - apply Hpost. rewrite <- Heq'. by apply list_elem_of_fmap_2.
Qed.

(** The drain as seen from one operation of its snapshot. *)
Lemma drain_around (env : Env) (pre post : list PendingOperation)
    (op : PendingOperation) :
  Dexie.getPendingOperations (pendingOps env) = pre ++ op :: post ->
  Forall (fun o => id o ≠ id op) pre ->
  Forall (fun o => id o ≠ id op) post ->
  let before := fst (fold_left turn pre (env, emptyResult)) in
  let c := snd (processSingleOperation op before) in
  let after := syncPendingOperations env in
  rowsWithId (id op) (pendingOps (fst after))
  = rowsWithId (id op) (queueAfter op c (pendingOps env))
  /\ (exists tr1 tr2, trace (fst after) = tr1 ++ eventsOf op c ++ tr2)
  /\ fetches (trace (fst after))
     = fetches (trace env) ++ (requestOf <$> pre ++ op :: post)
  /\ (forall m, c = Thrown m -> errorOf op m ∈ errors (snd after))
  /\ (forall e, e ∈ errors (snd after) -> operationId e = id op ->
                exists m, c = Thrown m /\ e = errorOf op m).
Proof.
  intros Hsnap Hpre Hpost before c after. subst after.
  unfold Sync.syncPendingOperations. rewrite Hsnap.
  rewrite length_app. cbn [length].
  replace (length pre + S (length post) =? 0)%nat with false
    by (symmetry; apply Nat.eqb_neq; lia).
  rewrite fold_left_app. cbn [fold_left].
  destruct (fold_left turn pre (env, emptyResult)) as [env1 r1] eqn:Hfold1.
  assert (Hb : before = env1) by (by subst before).
  assert (Hrows1 : rowsWithId (id op) (pendingOps env1)
                   = rowsWithId (id op) (pendingOps env)).
  { pose proof (drain_frame pre (env, emptyResult) (id op) Hpre) as H.
    by rewrite Hfold1 in H. }
  destruct (drain_trace_grows pre (env, emptyResult)) as [trA HtrA].
  rewrite Hfold1 in HtrA. cbn [fst] in HtrA.
  pose proof (drain_frame post (turn (env1, r1) op) (id op) Hpost) as Hrows2.
  destruct (drain_trace_grows post (turn (env1, r1) op)) as [trB HtrB].
  destruct (drain_errors_from post (turn (env1, r1) op)) as (esB & HesB & HidB).
  destruct (drain_errors_from pre (env, emptyResult)) as (esA & HesA & HidA).
  rewrite Hfold1 in HesA. cbn [fst snd errors emptyResult app] in HesA.
  pose proof (drain_fetches post (turn (env1, r1) op)) as Hf2.
  pose proof (drain_fetches pre (env, emptyResult)) as Hf1.
  rewrite Hfold1 in Hf1. cbn [fst] in Hf1.
  rewrite turn_trace in HtrB, Hf2.
  rewrite turn_errors in HesB. rewrite turn_queue in Hrows2.
  destruct (fold_left turn post (turn (env1, r1) op)) as [env2 r2].
  cbn [fst snd] in *. subst c. rewrite Hb.
  repeat split.
  - rewrite Hrows2. unfold queueAfter.
    destruct (snd (processSingleOperation op env1));
      [| destruct (retryCount op <? MAX_RETRIES)%nat];
      by rewrite ?rowsWithId_remove_eq, ?rowsWithId_update_eq, ?Hrows1.
  - exists (trace env ++ trA), trB. rewrite HtrB, HtrA. by rewrite <- !app_assoc.
  - rewrite Hf2, fetches_app, fetches_eventsOf, Hf1, fmap_app, fmap_cons.
    by rewrite <- !app_assoc.
  - intros m Hm. rewrite HesB, Hm.
    apply elem_of_app. left. apply elem_of_app. right. by left.
  - intros e He Hid. rewrite HesB, HesA in He.
    assert (Hforeign : forall (l : list PendingOperation) (es : list SyncError),
              Forall (fun o => id o ≠ id op) l ->
              Forall (fun x => operationId x ∈ id <$> l) es -> e ∉ es).
    { intros l es Hl Hes Hin.
      rewrite Forall_forall in Hes. specialize (Hes e Hin). rewrite Hid in Hes.
      apply list_elem_of_fmap_1 in Hes as (o & Ho & Hin').
      rewrite Forall_forall in Hl. by apply (Hl o Hin'). }
    apply elem_of_app in He as [He | He];
      [| by apply (Hforeign post esB Hpost HidB) in He].
    apply elem_of_app in He as [He | He];
      [by apply (Hforeign pre esA Hpre HidA) in He |].
    destruct (snd (processSingleOperation op env1)) as [| m].
    + by apply elem_of_nil in He.
    + apply list_elem_of_singleton in He. by exists m.
Qed.

(** *** A failure in a drain *)

Lemma ahead_split (pre post : list PendingOperation) (op : PendingOperation) :
  Forall (fun o => id o ≠ id op) pre ->
  ahead (id op) (pre ++ op :: post) = pre.
Proof.
  induction 1 as [| o pre Ho _ IH]; cbn [app ahead].
  - by rewrite decide_True.
  - rewrite decide_False by done. by rewrite IH.
Qed.

(** Whatever the operation and whatever the failure: when the dispatch of a
    queued operation fails, the drain reports it and retries or drops the
    operation by its [retryCount] alone. *)
Lemma failure_handled (env : Env) (op : PendingOperation) (m : string) :
  distinctIds (pendingOps env) -> op ∈ Dexie.rows (pendingOps env) ->
  dispatchEnds World fetch op env = Thrown m ->
  retriedThenDropped World fetch op m env.
Proof.
  intros Hnd Hin Hm.
  destruct (pending_split (pendingOps env) op Hnd Hin)
    as (pre & post & Hsnap & Hpre & Hpost).
  destruct (drain_around env pre post op Hsnap Hpre Hpost)
    as (Hrows & Htr & _ & Herr & _).
  rewrite dispatch_effect in Hrows, Htr, Herr. cbn [snd] in Hrows, Htr, Herr.
  unfold dispatchEnds, reached in Hm. rewrite Hsnap, (ahead_split pre post op Hpre) in Hm.
  rewrite Hm in Hrows, Htr, Herr.
  unfold retriedThenDropped. cbn zeta.
  split; [by apply Herr |].
  rewrite Hrows. unfold eventsOf in Htr. cbn [queueAfter].
  split; intros Hrc.
  - replace (retryCount op <? MAX_RETRIES)%nat with true in *
      by (symmetry; apply Nat.ltb_lt; unfold MAX_RETRIES; lia).
    split; [| exact Htr].
    by rewrite rowsWithId_update_eq, (rowsWithId_unique _ _ Hnd Hin).
  - replace (retryCount op <? MAX_RETRIES)%nat with false
      by (symmetry; apply Nat.ltb_ge; unfold MAX_RETRIES; lia).
    apply rowsWithId_remove_eq.
Qed.

(** *** Retries across drains *)

Local Abbreviation drains := (SyncSpec.drains World fetch).
Local Abbreviation failsInDrain := (SyncSpec.failsInDrain World fetch).

Lemma sync_distinct (env : Env) :
  distinctIds (pendingOps env) ->
  distinctIds (pendingOps (fst (syncPendingOperations env))).
Proof.
  intros H. unfold Sync.syncPendingOperations.
  destruct (length _ =? 0)%nat; [done |].
  pose proof (drain_fold_distinct (Dexie.getPendingOperations (pendingOps env))
                (env, emptyResult) H) as H'.
  by destruct (fold_left turn _ (env, emptyResult)).
Qed.

Lemma drains_S (k : nat) (env : Env) :
  drains (S k) env = fst (syncPendingOperations (drains k env)).
Proof. reflexivity. Qed.

Lemma drains_distinct (k : nat) (env : Env) :
  distinctIds (pendingOps env) -> distinctIds (pendingOps (drains k env)).
Proof.
  intros H. induction k as [| k IH]; [done |].
  rewrite drains_S. by apply sync_distinct.
Qed.

(** An id that is not in the queue is not in it after a drain either. *)
Lemma sync_absent (env : Env) (n : nat) :
  rowsWithId n (pendingOps env) = [] ->
  rowsWithId n (pendingOps (fst (syncPendingOperations env))) = [].
Proof.
  intros H. unfold Sync.syncPendingOperations.
  destruct (length _ =? 0)%nat; [done |].
  pose proof (drain_frame (Dexie.getPendingOperations (pendingOps env))
                (env, emptyResult) n) as Hfr.
  destruct (fold_left turn _ (env, emptyResult)). cbn [fst] in *.
  rewrite Hfr; [done |].
  apply Forall_forall. intros o Ho Heq.
  assert (Hin : o ∈ rowsWithId n (pendingOps env)).
  { apply list_elem_of_filter. split; [done |].
    by rewrite <- (DexieFacts.orderBy_perm (Dexie.rows (pendingOps env))). }
  rewrite H in Hin. by apply elem_of_nil in Hin.
Qed.

(** One drain, seen from a queued operation of which it reports a failure. *)
Lemma sync_failing (env : Env) (op : PendingOperation) :
  distinctIds (pendingOps env) -> op ∈ Dexie.rows (pendingOps env) ->
  (exists e, e ∈ errors (snd (syncPendingOperations env))
             /\ operationId e = id op) ->
  let after := syncPendingOperations env in
  rowsWithId (id op) (pendingOps (fst after))
  = (if (retryCount op <? MAX_RETRIES)%nat
     then [Dexie.withRetryCount (retryCount op + 1) op] else [])
  /\ exists m,
       errorOf op m ∈ errors (snd after)
       /\ exists tr1 tr2, trace (fst after) = tr1 ++ eventsOf op (Thrown m) ++ tr2.
Proof.
  intros Hnd Hin (e & He & Hid) after.
  destruct (pending_split (pendingOps env) op Hnd Hin)
    as (pre & post & Hsnap & Hpre & Hpost).
  destruct (drain_around env pre post op Hsnap Hpre Hpost)
    as (Hrows & Htr & _ & Herr & Hown).
  destruct (Hown e He Hid) as (m & Hm & _).
  rewrite Hm in Hrows, Htr.
  split; [| exists m; split; [by apply Herr | exact Htr]].
  subst after. rewrite Hrows. cbn [queueAfter].
  destruct (retryCount op <? MAX_RETRIES)%nat.
  - by rewrite rowsWithId_update_eq, (rowsWithId_unique _ _ Hnd Hin).
  - by rewrite rowsWithId_remove_eq.
Qed.

Lemma sync_fetches (env : Env) :
  fetches (trace (fst (syncPendingOperations env)))
  = fetches (trace env)
    ++ (requestOf <$> Dexie.getPendingOperations (pendingOps env)).
Proof.
  unfold Sync.syncPendingOperations.
  destruct (Dexie.getPendingOperations (pendingOps env)) as [| o l] eqn:Hp.
  - by rewrite app_nil_r.
  - cbn [length Nat.eqb].
    pose proof (drain_fetches (o :: l) (env, emptyResult)) as H.
    by destruct (fold_left turn (o :: l) (env, emptyResult)).
Qed.

Lemma withRetryCount_same (op : PendingOperation) :
  Dexie.withRetryCount (retryCount op) op = op.
Proof. by destruct op. Qed.

Lemma row_is_queued (t : Dexie.Table) (n : nat) (op : PendingOperation) :
  rowsWithId n t = [op] -> op ∈ Dexie.rows t.
Proof.
  intros H. assert (Hin : op ∈ rowsWithId n t) by (rewrite H; by left).
  by apply list_elem_of_filter in Hin as [_ ?].
Qed.

(** While each drain reports its failure, an operation queued with
    [retryCount = 0] sits in the queue with [retryCount = k] after [k] drains,
    for [k] up to 3. *)
Lemma failing_row (env : Env) (op : PendingOperation) (k : nat) :
  distinctIds (pendingOps env) -> op ∈ Dexie.rows (pendingOps env) ->
  retryCount op = 0%nat ->
  (forall j, (j < k)%nat -> failsInDrain j (id op) env) -> (k <= 3)%nat ->
  rowsWithId (id op) (pendingOps (drains k env)) = [Dexie.withRetryCount k op].
Proof.
  intros Hnd Hin Hrc. induction k as [| k IH]; intros Hfail Hk.
  - cbn. rewrite <- Hrc, withRetryCount_same. by apply rowsWithId_unique.
  - specialize (IH ltac:(intros j Hj; apply Hfail; lia) ltac:(lia)).
    destruct (sync_failing (drains k env) (Dexie.withRetryCount k op)
                (drains_distinct k env Hnd) (row_is_queued _ _ _ IH)
                (Hfail k ltac:(lia)))
      as [Hrow _].
    cbn [Dexie.withRetryCount id retryCount] in Hrow.
    replace (k <? MAX_RETRIES)%nat with true in Hrow
      by (symmetry; apply Nat.ltb_lt; unfold MAX_RETRIES; lia).
    rewrite drains_S, Hrow. by rewrite Nat.add_1_r.
Qed.

(** C4, with the retry budget the engine has. An operation queued with
    [retryCount = 0] that fails in four successive drains goes through this:
    each of the first three failures ([retryCount = k < 3]) is reported in
    [errors] as retryable, raises [retryCount] to [k + 1], is followed by a
    wait of [RETRY_DELAY_MS * 2 ^ k] and leaves the operation queued for the
    next drain; the fourth failure ([retryCount = 3]) is reported as not
    retryable and removes the operation.  From then on the operation is not in
    the queue, and since a drain sends one request per operation of its
    snapshot, it is sent once per drain and never a fifth time. *)
Theorem retry_lifecycle (env : Env) (op : PendingOperation) :
  distinctIds (pendingOps env) -> op ∈ Dexie.rows (pendingOps env) ->
  retryCount op = 0%nat ->
  (forall k, (k < 4)%nat -> failsInDrain k (id op) env) ->
  (forall k, (k < 3)%nat ->
     rowsWithId (id op) (pendingOps (drains k env)) = [Dexie.withRetryCount k op]
     /\ rowsWithId (id op) (pendingOps (drains (S k) env))
        = [Dexie.withRetryCount (k + 1) op]
     /\ exists m,
          mkSyncError (id op) m true
            ∈ errors (snd (syncPendingOperations (drains k env)))
          /\ exists tr1 tr2,
               trace (drains (S k) env)
               = tr1 ++ [Fetch (requestOf op); Wait (RETRY_DELAY_MS * 2 ^ k)]
                     ++ tr2)
  /\ (rowsWithId (id op) (pendingOps (drains 3 env)) = [Dexie.withRetryCount 3 op]
      /\ rowsWithId (id op) (pendingOps (drains 4 env)) = []
      /\ exists m,
           mkSyncError (id op) m false
             ∈ errors (snd (syncPendingOperations (drains 3 env))))
  /\ (forall k, (4 <= k)%nat -> rowsWithId (id op) (pendingOps (drains k env)) = [])
  /\ (forall k,
        fetches (trace (drains (S k) env))
        = fetches (trace (drains k env))
          ++ (requestOf <$> Dexie.getPendingOperations (pendingOps (drains k env)))).
Proof.
  intros Hnd Hin Hrc Hfail.
  assert (Hrow : forall k, (k <= 3)%nat ->
            rowsWithId (id op) (pendingOps (drains k env))
            = [Dexie.withRetryCount k op]).
  { intros k Hk. apply failing_row; try done. intros j Hj. apply Hfail. lia. }
  assert (Hstep : forall k, (k <= 3)%nat ->
            let after := syncPendingOperations (drains k env) in
            rowsWithId (id op) (pendingOps (fst after))
            = (if (k <? MAX_RETRIES)%nat
               then [Dexie.withRetryCount (k + 1) op] else [])
            /\ exists m,
                 mkSyncError (id op) m (k <? MAX_RETRIES)%nat ∈ errors (snd after)
                 /\ exists tr1 tr2,
                      trace (fst after)
                      = tr1 ++ eventsOf (Dexie.withRetryCount k op) (Thrown m)
                            ++ tr2).
  { intros k Hk.
    exact (sync_failing (drains k env) (Dexie.withRetryCount k op)
             (drains_distinct k env Hnd) (row_is_queued _ _ _ (Hrow k Hk))
             (Hfail k ltac:(lia))). }
  assert (Hgone : rowsWithId (id op) (pendingOps (drains 4 env)) = []).
  { destruct (Hstep 3%nat ltac:(lia)) as [H _]. rewrite drains_S. exact H. }
  split; [| split; [| split]].
  - intros k Hk. split; [apply Hrow; lia |].
    destruct (Hstep k ltac:(lia)) as (Hrow' & m & Herr & Htr).
    replace (k <? MAX_RETRIES)%nat with true in *
      by (symmetry; apply Nat.ltb_lt; unfold MAX_RETRIES; lia).
    rewrite drains_S. split; [exact Hrow' |]. exists m. split; [exact Herr |].
    unfold eventsOf in Htr. cbn [Dexie.withRetryCount retryCount] in Htr.
    replace (k <? MAX_RETRIES)%nat with true in Htr
      by (symmetry; apply Nat.ltb_lt; unfold MAX_RETRIES; lia).
    exact Htr.
  - split; [apply Hrow; lia |]. split; [exact Hgone |].
    destruct (Hstep 3%nat ltac:(lia)) as (_ & m & Herr & _). by exists m.
  - intros k Hk. induction Hk as [| k Hk IH]; [exact Hgone |].
    rewrite drains_S. by apply sync_absent.
  - intros k. rewrite drains_S. apply sync_fetches.
Qed.

End Engine.

End SyncFacts.

(** ** Retries at work *)

Module RetryFacts.
Import Sync SyncSpec.

(** One queued operation on a device without network, drained four times. *)
Lemma retry_lifecycle_witness :
  rowsWithId 1 (pendingOps (drains unit Site.noNetwork 3 Samples.cutOff))
  = [Dexie.withRetryCount 3 (Dexie.withId 1 (Samples.captured 10))]
  /\ rowsWithId 1 (pendingOps (drains unit Site.noNetwork 4 Samples.cutOff)) = [].
Proof.
  assert (Hd : distinctIds (pendingOps Samples.cutOff)).
  { apply NoDup_singleton. }
  assert (Hin : Dexie.withId 1 (Samples.captured 10)
                ∈ Dexie.rows (pendingOps Samples.cutOff)).
  { by left. }
  assert (Hf : forall k, (k < 4)%nat ->
            failsInDrain unit Site.noNetwork k 1 Samples.cutOff).
  { intros k Hk.
    exists (mkSyncError 1 "Failed to fetch" (k <? 3)%nat). split; [| done].
    destruct k as [| [| [| [| k]]]]; [by left .. | lia]. }
  destruct (SyncFacts.retry_lifecycle unit Site.noNetwork Samples.cutOff
              (Dexie.withId 1 (Samples.captured 10)) Hd Hin eq_refl Hf)
    as (_ & (H3 & H4 & _) & _).
  split; [exact H3 | exact H4].
Defined.

(** C4 as worded, at a concrete input. With no network, the operation has
    failed three times after three drains, yet it is still queued, with
    [retryCount = 3]; the fourth drain attempts it a fourth time and only then
    removes it. *)
Lemma third_failure_keeps_operation :
  let op := Dexie.withId 1 (Samples.captured 10) in
  let after3 := drains unit Site.noNetwork 3 Samples.cutOff in
  let after4 := drains unit Site.noNetwork 4 Samples.cutOff in
  fetches (trace after3) = [requestOf op; requestOf op; requestOf op]
  /\ Dexie.rows (pendingOps after3) = [Dexie.withRetryCount 3 op]
  /\ fetches (trace after4) = [requestOf op; requestOf op; requestOf op; requestOf op]
  /\ Dexie.rows (pendingOps after4) = [].
Proof. vm_compute. repeat split. Qed.

End RetryFacts.

(** ** The engine against the update endpoints *)

Module StatusRouteFacts.
Import StatusRoute.

Lemma PATCH_missing (db : passes) (now : Z) (body : obj) (s : string) :
  body !! "passId" = Some (VStr s) -> s ≠ "" ->
  body !! "status" = Some (VStr "used") \/ body !! "status" = Some (VStr "unused") ->
  db !! s = None ->
  PATCH db now true body = (db, mkAnswer 404 (Some "Pass not found") None).
Proof.
  intros Hid Hne Hst Hnone. unfold PATCH. rewrite Hid.
  cbn [negb truthy UpdateRoute.findByValue].
  assert (String.eqb s "" = false) as -> by (by apply String.eqb_neq).
  cbn [negb]. rewrite Hnone.
  by destruct Hst as [-> | ->].
Qed.

End StatusRouteFacts.

Module SiteFacts.
Import Sync SyncSpec SyncRouteSpec Site.

(** Both update endpoints answer 404 for a pass the server does not hold and
    leave the store alone, and the engine turns the answer into a failure
    with the endpoint's message. *)
Lemma missing_pass_fails
    (elsewhere : Request -> Site -> Fetched * Site)
    (op : PendingOperation) (s : string) (w : Site) :
  isUpdate op -> names s op -> store w !! s = None ->
  (type op = UpdateStatus -> admitted op w) ->
  settle (fst (serve elsewhere (requestOf op) w)) (fallbackOf op)
  = Thrown "Pass not found"
  /\ store (snd (serve elsewhere (requestOf op) w)) = store w.
Proof.
  unfold names, admitted, requestOf, serve.
  intros [Ht | Ht] [Hid Hne] Hnone Hadm; rewrite Ht in *; cbn [url method body] in *.
  - rewrite decide_True by done.
    by rewrite (UpdateRouteFacts.PUT_missing (store w) (clock w) _ s Hid Hne Hnone).
  - rewrite decide_False by (intros [? ?]; discriminate).
    rewrite decide_True by done.
    destruct (Hadm eq_refl) as [-> Hst].
    by rewrite (StatusRouteFacts.PATCH_missing (store w) (clock w) _ s Hid Hne Hst Hnone).
Qed.

(** C7, with the failure handling the engine has. The engine has one way of
    dealing with a failed dispatch, whatever the operation and whatever the
    failure: it reports the failure in [errors] with
    [retryable = (retryCount < 3)]; while [retryCount < 3] the operation
    stays in the queue with [retryCount + 1] and the back-off delay is
    waited; once [retryCount] has reached 3 the operation is removed.  Both
    update endpoints answer a request for a pass the server does not hold
    with 404 "Pass not found" and change nothing.  So an update-pass or
    update-status operation whose pass is not on the server when the drain
    comes to it goes down this same path, with that message. *)
Theorem not_found_is_retried :
  (forall (World : Type) (fetch : Request -> World -> Fetched * World)
          (env : Env World) (op : PendingOperation) (m : string),
      distinctIds (pendingOps env) -> op ∈ Dexie.rows (pendingOps env) ->
      dispatchEnds World fetch op env = Thrown m ->
      retriedThenDropped World fetch op m env)
  /\ (forall (elsewhere : Request -> Site -> Fetched * Site)
             (op : PendingOperation) (s : string) (w : Site),
        isUpdate op -> names s op -> store w !! s = None ->
        (type op = UpdateStatus -> admitted op w) ->
        settle (fst (serve elsewhere (requestOf op) w)) (fallbackOf op)
        = Thrown "Pass not found"
        /\ store (snd (serve elsewhere (requestOf op) w)) = store w)
  /\ (forall (elsewhere : Request -> Site -> Fetched * Site)
             (env : Env Site) (op : PendingOperation) (s : string),
        distinctIds (pendingOps env) -> op ∈ Dexie.rows (pendingOps env) ->
        isUpdate op -> names s op ->
        let server := world (reached Site (serve elsewhere) op env) in
        store server !! s = None ->
        (type op = UpdateStatus -> admitted op server) ->
        retriedThenDropped Site (serve elsewhere) op "Pass not found" env).
Proof.
  split; [| split].
  - intros World fetch env op m. apply SyncFacts.failure_handled.
  - intros elsewhere op s w. apply missing_pass_fails.
  - intros elsewhere env op s Hnd Hin Hu Hn server Hnone Hadm.
    apply SyncFacts.failure_handled; [done | done |].
    unfold dispatchEnds. fold server.
    by apply (missing_pass_fails elsewhere op s server).
Qed.

(** A check-in of VIS-0404 drained against a server that only has
    VIS-0001. *)
Lemma not_found_is_retried_witness :
  let op := Samples.checkIn 1 "VIS-0404" 50 in
  let after := syncPendingOperations Site updatesOnly Samples.strayCheckIn in
  type op = UpdateStatus
  /\ store (world Samples.strayCheckIn) !! "VIS-0404" = None
  /\ mkSyncError 1 "Pass not found" true ∈ errors (snd after).
Proof.
  split; [reflexivity |]. split; [reflexivity |].
  assert (H : retriedThenDropped Site updatesOnly
                (Samples.checkIn 1 "VIS-0404" 50) "Pass not found"
                Samples.strayCheckIn).
  { apply (proj2 (proj2 not_found_is_retried)) with (s := "VIS-0404").
    - apply NoDup_singleton.
    - by left.
    - by right.
    - split; [vm_compute; reflexivity | done].
    - vm_compute. reflexivity.
    - intros _. split; [vm_compute; reflexivity | left; vm_compute; reflexivity]. }
  exact (proj1 H).
Defined.

(** C7 as worded, at a concrete input. The queue holds a rename of
    VIS-0404, which the server does not have.  After the drain the operation
    is still in the queue, with [retryCount = 1], and the engine has waited
    the back-off delay of 1000 ms: the failure went down the retry path. *)
Lemma stray_rename_is_kept :
  let op := Samples.rename 1 "VIS-0404" "Chitra" 50 in
  let after := syncPendingOperations Site updatesOnly (Samples.strayRename 0) in
  Dexie.rows (pendingOps (fst after)) = [Dexie.withRetryCount 1 op]
  /\ trace (fst after) = [Fetch (requestOf op); Wait 1000]
  /\ errors (snd after) = [mkSyncError 1 "Pass not found" true].
Proof. vm_compute. repeat split. Qed.

End SiteFacts.

(** ** What the engine sends and what the update endpoint does with it *)

Module DispatchFacts.
Import Sync SyncSpec.

(** C3, with what the engine sends and what the endpoint does. The engine
    dispatches an operation by one request to the endpoint of its type.  The
    body is the payload, to which update-pass and update-status add
    [passId]; neither [createdAt] nor [eventId] of the
    operation is put into it.  For update-pass the endpoint looks the pass up
    by the body's [passId]: it answers 404 and changes nothing if there is
    none; otherwise it writes the visitor fields whatever the timestamps,
    stamps [updatedAt] with the server clock, and answers 200 with the record
    as stored. *)
Theorem dispatch_and_update
    (World : Type) (fetch : Request -> World -> Fetched * World)
    (env : Env World) (op : PendingOperation) :
  trace (fst (processSingleOperation World fetch op env))
  = trace env ++ [Fetch (requestOf op)]
  /\ pendingOps (fst (processSingleOperation World fetch op env)) = pendingOps env
  /\ (url (requestOf op), method (requestOf op))
     = match type op with
       | UpdatePass => ("/api/passes/update", "PUT")
       | CreatePass => ("/api/passes/create-batch", "POST")
       | UpdateStatus => ("/api/passes/status", "PATCH")
       | CreateEvent => ("/api/events/create", "POST")
       end
  /\ (forall k, k ≠ "passId" -> body (requestOf op) !! k = payload op !! k)
  /\ (payload op !! "passId" = None ->
      body (requestOf op) !! "passId"
      = match type op with
        | UpdatePass | UpdateStatus => VStr <$> passId op
        | _ => None
        end)
  /\ (type op = UpdatePass ->
      forall (db : passes) (now : Z) (s : string),
        body (requestOf op) !! "passId" = Some (VStr s) -> s ≠ "" ->
        (db !! s = None ->
           UpdateRoute.PUT db now (body (requestOf op))
           = (db, UpdateRoute.mkAnswer 404 (Some "Pass not found") None))
        /\ (forall p, db !! s = Some p ->
               let p' := UpdateRoute.setVisitor
                           (payload op !! "name") (payload op !! "mobile")
                           (payload op !! "city") (payload op !! "age") now p in
               UpdateRoute.PUT db now (body (requestOf op))
               = (<[s := p']> db,
                  UpdateRoute.mkAnswer 200 None (Some (UpdateRoute.view s p')))
               /\ updatedAt p' = now)).
Proof.
  assert (Hbody : forall k, k ≠ "passId" ->
            body (requestOf op) !! k = payload op !! k).
  { intros k Hk. unfold requestOf, withPassId.
    destruct (type op); cbn [body]; try done;
      (rewrite lookup_union_l; [done |]);
      destruct (passId op); cbn; by rewrite ?lookup_singleton_ne, ?lookup_empty. }
  rewrite SyncFacts.dispatch_effect. cbn [fst trace pendingOps].
  split; [done |]. split; [done |].
  split; [unfold requestOf; by destruct (type op) |].
  split; [exact Hbody |].
  split.
  - intros Hnone. unfold requestOf, withPassId.
    destruct (type op); cbn [body]; try done;
      rewrite lookup_union_r by done;
      destruct (passId op); cbn; by rewrite ?lookup_singleton_eq, ?lookup_empty.
  - intros Ht db now s Hid Hne. split.
    + intros Hnone. by apply (UpdateRouteFacts.PUT_missing _ _ _ s).
    + intros p Hp. cbn zeta. split; [| done].
      pose proof (UpdateRouteFacts.PUT_found db now (body (requestOf op)) s p
                    Hid Hne Hp) as HP.
      cbn zeta in HP. by rewrite !Hbody in HP.
Qed.

(** A rename of VIS-0001 sent to the update endpoint. *)
Lemma dispatch_and_update_witness :
  let op := Samples.rename 1 "VIS-0001" "Asha" 50 in
  type op = UpdatePass
  /\ UpdateRoute.status
       (snd (UpdateRoute.PUT Samples.oneFresh 500 (body (requestOf op)))) = 200%nat.
Proof.
  split; [reflexivity |].
  destruct (dispatch_and_update unit Site.noNetwork Samples.cutOff
              (Samples.rename 1 "VIS-0001" "Asha" 50))
    as (_ & _ & _ & _ & _ & Hput).
  destruct (Hput eq_refl Samples.oneFresh 500 "VIS-0001" eq_refl ltac:(done))
    as [_ Hfound].
  destruct (Hfound Samples.freshPass eq_refl) as [Heq _].
  by rewrite Heq.
Defined.

(** C3 as worded, at a concrete input. VIS-0001 was last updated at 100; an
    update-pass captured earlier, at 50, is drained.  The request body has no
    [createdAt], and the endpoint overwrites the name and stamps the record
    with its own clock, where the timestamp rule of the reconciliation handler
    skips the same operation and leaves the record alone. *)
Lemma stale_rename_overwrites :
  let op := Samples.rename 1 "VIS-0001" "Asha" 50 in
  let stored := fst (UpdateRoute.PUT Samples.oneFresh 500 (body (requestOf op))) in
  createdAt op < updatedAt Samples.freshPass
  /\ body (requestOf op) !! "createdAt" = None
  /\ SyncRoute.store
       (SyncRoute.processUpdatePass Samples.oneFresh (SyncRouteSpec.posted op))
     = Samples.oneFresh
  /\ (fields <$> stored !! "VIS-0001") ≫= (.!! "name") = Some (VStr "Asha")
  /\ updatedAt <$> stored !! "VIS-0001" = Some 500.
Proof. vm_compute. repeat split. Qed.

End DispatchFacts.

(** ** The manual trigger while offline *)

Module DashboardFacts.
Import Dashboard.

(** C8, with the guard where the code has it. The guard is in the dashboard:
    [handleManualSync], run with the [offline] flag set, ends at once with the
    message "Cannot sync while offline" and leaves the queue, the world
    beyond the device and the trace of requests as they were.  The button
    that calls the handler is only there while the flag is clear, and a
    click on it goes on to [triggerManualSync].  [triggerManualSync] itself
    checks nothing: whatever the state of the network, it is one drain, which
    sends a request for every pending operation. *)
Theorem manual_sync_offline
    (World : Type) (fetch : Sync.Request -> World -> Sync.Fetched * World)
    (ui : State) (env : Sync.Env World) :
  (offline ui = true ->
     handleManualSync World fetch ui env
     = (setSyncMessage "Cannot sync while offline" ui, env))
  /\ (syncNowEnabled ui = true ->
        offline ui = false
        /\ snd (handleManualSync World fetch ui env)
           = fst (Sync.triggerManualSync World fetch env))
  /\ Sync.triggerManualSync World fetch env
     = Sync.syncPendingOperations World fetch env
  /\ SyncSpec.fetches (Sync.trace (fst (Sync.triggerManualSync World fetch env)))
     = SyncSpec.fetches (Sync.trace env)
       ++ (Sync.requestOf <$> Dexie.getPendingOperations (Sync.pendingOps env)).
Proof.
  split; [| split; [| split]].
  - intros Ho. unfold handleManualSync. by rewrite Ho.
  - unfold syncNowEnabled. intros H.
    apply andb_true_iff in H as [H _]. apply andb_true_iff in H as [Ho Hc].
    apply negb_true_iff in Ho. split; [done |].
    unfold handleManualSync. rewrite Ho.
    apply Nat.ltb_lt in Hc.
    replace (pendingOpsCount ui =? 0)%nat with false
      by (symmetry; apply Nat.eqb_neq; lia).
    by destruct (Sync.triggerManualSync World fetch env).
  - reflexivity.
  - apply SyncFacts.sync_fetches.
Qed.

(** "Sync Now" handled by a dashboard that knows it is offline. *)
Lemma manual_sync_offline_witness :
  offline Samples.knownOffline = true
  /\ syncMessage
       (fst (handleManualSync unit Site.noNetwork Samples.knownOffline
               Samples.cutOff))
     = Some "Cannot sync while offline".
Proof.
  split; [reflexivity |].
  by rewrite (proj1 (manual_sync_offline unit Site.noNetwork Samples.knownOffline
                       Samples.cutOff) eq_refl).
Defined.

(** C8 as worded, at a concrete input. The device has no network and one
    operation is queued.  [triggerManualSync] does not fail fast: it sends
    the request of the operation, reports the network failure and not that
    the device is offline, waits the back-off delay and leaves the operation
    in the queue with its retry count raised.  The same happens at a click on
    the "Sync Now" button of a dashboard that has not yet heard that the
    network is gone. *)
Lemma manual_trigger_sends_while_offline :
  let op := Dexie.withId 1 (Samples.captured 10) in
  let after := Sync.triggerManualSync unit Site.noNetwork Samples.cutOff in
  let clicked :=
    handleManualSync unit Site.noNetwork Samples.showsSyncNow Samples.cutOff in
  Dexie.isOnline (Some false) = false
  /\ Sync.trace (fst after) = [Sync.Fetch (Sync.requestOf op); Sync.Wait 1000]
  /\ Sync.errors (snd after) = [Sync.mkSyncError 1 "Failed to fetch" true]
  /\ Dexie.rows (Sync.pendingOps (fst after)) = [Dexie.withRetryCount 1 op]
  /\ syncNowEnabled Samples.showsSyncNow = true
  /\ Sync.trace (snd clicked) = [Sync.Fetch (Sync.requestOf op); Sync.Wait 1000]
  /\ syncMessage (fst clicked) = Some "Synced 0 operations, 1 failed".
Proof. vm_compute. repeat split. Qed.

End DashboardFacts.

(** * Further properties *)

(** ** The reconciliation handler over whole batches *)

Module BatchFacts.
Import SyncRoute SyncRouteSpec BatchSpec.





(** X1. A batch never creates and never deletes a pass: the handler leaves
    the set of stored pass ids as it found it, whatever the operations. *)
Theorem batch_keeps_pass_ids (db : passes) (ops : list SyncOperation) :
  dom (fst (POST db ops)) = dom db.
Proof.
  unfold POST.
  pose proof (SyncRouteFacts.fold_step_dom ops db initialResults) as H.
  by destruct (fold_left step ops (db, initialResults)).
Qed.



(** *** Redelivery and reordering *)

Lemma written_twice (op : SyncOperation) (p : Pass) :
  written op (written op p) = written op p.
Proof.
  unfold written. destruct (type op); unfold setUpdatePass, setUpdateStatus;
    cbn [updatedAt fields]; f_equal;
    try (by rewrite (assoc_L (∪)), (idemp_L (∪))).
  by rewrite insert_insert_ne, insert_insert_eq, insert_insert_ne,
    insert_insert_eq by done.
Qed.

Lemma not_later_than_itself (d : Date) :
  laterThan (Instant (bsonDate d)) d = false.
Proof. destruct d as [t |]; cbn; [| done]. rewrite Z.gtb_ltb. apply Z.ltb_irrefl. Qed.

Lemma process_again (db : passes) (op : SyncOperation) :
  store (processOperation (store (processOperation db op)) op)
  = store (processOperation db op).
Proof.
  destruct (SyncRouteFacts.process_store db op)
    as [Hsame | (s & p & Hid & Hp & Hu & _ & Hpl & Happ)].
  - by rewrite !Hsame.
  - rewrite Happ.
    rewrite (SyncRouteFacts.process_stored _ op s (written op p) Hu Hid)
      by apply lookup_insert_eq.
    rewrite SyncRouteFacts.written_updatedAt, not_later_than_itself, Hpl.
    cbn [store]. by rewrite written_twice, insert_insert_eq.
Qed.

(** X3. Redelivery is harmless: a batch in which an operation is followed by
    a copy of itself leaves the store exactly as the batch with the single
    operation does, for every operation type and every store. *)
Theorem redelivery_is_idempotent (db : passes) (op : SyncOperation) :
  fst (POST db [op; op]) = fst (POST db [op]).
Proof.
  unfold POST. cbn [fold_left]. unfold step.
  destruct (ending (processOperation db op));
    destruct (ending (processOperation (store (processOperation db op)) op));
    cbn [fst]; apply process_again.
Qed.

Lemma process_advances (db : passes) (op : SyncOperation) (s : string) (p : Pass) :
  isDated op -> db !! s = Some p ->
  exists p', store (processOperation db op) !! s = Some p'
             /\ updatedAt p <= updatedAt p'.
Proof.
  intros [t Hat] Hp.
  destruct (SyncRouteFacts.process_store db op)
    as [Hsame | (s' & q & Hid & Hq & Hu & Hl & _ & Happ)].
  - exists p. rewrite Hsame. split; [done | lia].
  - rewrite Happ. destruct (decide (s' = s)) as [-> | Hne].
    + exists (written op q). rewrite lookup_insert_eq. split; [done |].
      rewrite SyncRouteFacts.written_updatedAt, Hat. cbn [bsonDate].
      rewrite Hat in Hl. cbn [laterThan] in Hl.
      assert (q = p) as -> by congruence.
      rewrite Z.gtb_ltb in Hl. apply Z.ltb_ge in Hl. lia.
    + exists p. rewrite lookup_insert_ne by done. split; [done | lia].
Qed.

(** X4. [updatedAt] never goes back under operations whose [createdAt] is a
    date: whatever batch of them is processed, every stored pass is still
    stored afterwards and its [updatedAt] is at least what it was. *)
Theorem batch_never_rewinds
    (db : passes) (ops : list SyncOperation) (s : string) (p : Pass) :
  Forall isDated ops -> db !! s = Some p ->
  exists p', fst (POST db ops) !! s = Some p' /\ updatedAt p <= updatedAt p'.
Proof.
  intros Hall Hp. unfold POST.
  assert (H : forall r, exists p',
            fst (fold_left step ops (db, r)) !! s = Some p'
            /\ updatedAt p <= updatedAt p').
  { revert db p Hp. induction Hall as [| o ops Ho _ IH]; intros db p Hp r;
      cbn [fold_left].
    - exists p. split; [done | lia].
    - destruct (process_advances db o s p Ho Hp) as (q & Hq & Hle).
      unfold step at 2.
      destruct (ending (processOperation db o));
        match goal with
        | |- context [fold_left step ops (_, ?r')] =>
            destruct (IH _ q Hq r') as (p' & Hp' & Hle')
        end;
        exists p'; (split; [exact Hp' | lia]). }
  destruct (H initialResults) as (p' & Hp' & Hle).
  destruct (fold_left step ops (db, initialResults)). by exists p'.
Qed.

Lemma POST_store_one (db : passes) (a : SyncOperation) :
  fst (POST db [a]) = store (processOperation db a).
Proof.
  unfold POST. cbn [fold_left]. unfold step.
  by destruct (ending (processOperation db a)).
Qed.

Lemma POST_store_two (db : passes) (a b : SyncOperation) :
  fst (POST db [a; b])
  = store (processOperation (store (processOperation db a)) b).
Proof.
  unfold POST. cbn [fold_left]. unfold step.
  destruct (ending (processOperation db a));
    by destruct (ending (processOperation (store (processOperation db a)) b)).
Qed.

Lemma status_overwrites (a b : SyncOperation) (p : Pass) :
  type a = UpdateStatus -> type b = UpdateStatus ->
  written b (written a p) = written b p.
Proof.
  intros Ha Hb. unfold written. rewrite Ha, Hb.
  unfold setUpdateStatus. cbn [updatedAt fields]. f_equal.
  apply map_eq. intros k.
  destruct (decide (k = "status")) as [-> | H1]; [by rewrite !lookup_insert_eq |].
  rewrite !(lookup_insert_ne _ "status") by done.
  destruct (decide (k = "usedAt")) as [-> | H2]; [by rewrite !lookup_insert_eq |].
  by rewrite !lookup_insert_ne by done.
Qed.

(** X5. Status updates converge whatever their order of arrival: of two
    update-status operations for the same pass whose [createdAt] are dates,
    the later of which has a payload, the one captured earlier leaves no
    trace once the later one has been processed; delivered before or after
    it, the store ends as if the later one had come alone. *)
Theorem later_status_update_wins
    (db : passes) (early late : SyncOperation) (te tl : Z) :
  type early = UpdateStatus -> type late = UpdateStatus ->
  passId early = passId late ->
  createdAt early = Instant te -> createdAt late = Instant tl -> te < tl ->
  hasPayload late ->
  fst (POST db [early; late]) = fst (POST db [late])
  /\ fst (POST db [late; early]) = fst (POST db [late]).
Proof.
  intros Hte Htl Hid Hate Hatl Hlt Hpl%SyncRouteFacts.hasPayload_lacks.
  rewrite !POST_store_two, POST_store_one.
  assert (Hue : isUpdate early) by (by right).
  assert (Hul : isUpdate late) by (by right).
  destruct (findOne db (passId late)) as [p |] eqn:Hf.
  - destruct (passId late) as [s |] eqn:Hs; [| discriminate]. cbn in Hf.
    assert (Hlate : forall db' q, db' !! s = Some q ->
              store (processOperation db' late)
              = if updatedAt q >? tl then db' else <[s := written late q]> db').
    { intros db' q Hq.
      rewrite (SyncRouteFacts.process_stored db' late s q Hul Hs Hq), Hatl, Hpl.
      cbn [laterThan]. by destruct (updatedAt q >? tl). }
    assert (Hearly : forall db' q, db' !! s = Some q ->
              store (processOperation db' early)
              = if updatedAt q >? te then db'
                else if lacksPayload early then db'
                     else <[s := written early q]> db').
    { intros db' q Hq.
      rewrite (SyncRouteFacts.process_stored db' early s q Hue Hid Hq), Hate.
      cbn [laterThan]. destruct (updatedAt q >? te); [done |].
      by destruct (lacksPayload early). }
    assert (Hwl : forall q, updatedAt (written late q) = tl)
      by (intros q; by rewrite SyncRouteFacts.written_updatedAt, Hatl).
    assert (Hwe : forall q, updatedAt (written early q) = te)
      by (intros q; by rewrite SyncRouteFacts.written_updatedAt, Hate).
    rewrite (Hearly db p Hf), (Hlate db p Hf).
    destruct (Z.gtb_spec (updatedAt p) te) as [He | He];
      destruct (Z.gtb_spec (updatedAt p) tl) as [Hl | Hl];
      try lia.
    + rewrite (Hlate db p Hf), (Hearly db p Hf).
      split.
      * by replace (updatedAt p >? tl) with true
          by (symmetry; apply Z.gtb_lt; lia).
      * by replace (updatedAt p >? te) with true
          by (symmetry; apply Z.gtb_lt; lia).
    + rewrite (Hlate db p Hf).
      rewrite (Hearly _ (written late p)) by apply lookup_insert_eq.
      rewrite Hwl.
      replace (updatedAt p >? tl) with false
        by (symmetry; rewrite Z.gtb_ltb; apply Z.ltb_ge; lia).
      by replace (tl >? te) with true by (symmetry; apply Z.gtb_lt; lia).
    + rewrite (Hearly _ (written late p)) by apply lookup_insert_eq.
      rewrite Hwl.
      replace (tl >? te) with true by (symmetry; apply Z.gtb_lt; lia).
      split; [| done].
      destruct (lacksPayload early).
      * rewrite (Hlate db p Hf).
        by replace (updatedAt p >? tl) with false
          by (symmetry; rewrite Z.gtb_ltb; apply Z.ltb_ge; lia).
      * rewrite (Hlate _ (written early p)) by apply lookup_insert_eq.
        rewrite Hwe.
        replace (te >? tl) with false
          by (symmetry; rewrite Z.gtb_ltb; apply Z.ltb_ge; lia).
        by rewrite insert_insert_eq, status_overwrites.
  - assert (Hmiss : forall o, type o = UpdateStatus -> passId o = passId late ->
              processOperation db o = mkOutcome db (Thrown (notFound o)) []).
    { intros o Ho Hido. apply SyncRouteFacts.process_missing; [by right |].
      by rewrite Hido. }
    rewrite (Hmiss early Hte Hid), (Hmiss late Htl eq_refl). cbn [store].
    by rewrite (Hmiss early Hte Hid), (Hmiss late Htl eq_refl).
Qed.

End BatchFacts.

(** ** The visitor update endpoint, request after request *)

Module VisitorFacts.
Import UpdateRoute.

Lemma truthy_string (s : string) : truthy (Some (VStr s)) = true <-> s ≠ "".
Proof.
  cbn. rewrite negb_true_iff. split.
  - by intros ?%String.eqb_neq.
  - by intros ?%String.eqb_neq.
Qed.

Lemma PUT_unnamed (db : passes) (now : Z) (body : obj) :
  truthy (body !! "passId") = false ->
  PUT db now body = (db, mkAnswer 400 (Some "Pass ID is required") None).
Proof. intros Ht. unfold PUT. by rewrite Ht. Qed.

Lemma PUT_not_ok (db : passes) (now : Z) (body : obj) :
  status (snd (PUT db now body)) ≠ 200%nat ->
  fst (PUT db now body) = db
  /\ pass (snd (PUT db now body)) = None
  /\ is_Some (error (snd (PUT db now body))).
Proof.
  unfold PUT. destruct (negb (truthy (body !! "passId"))); [cbn; eauto |].
  destruct (body !! "passId") as [[| | | s | | |] |]; cbn [findByValue];
    try by (cbn; eauto).
  destruct (db !! s) as [p |] eqn:Hp; [| cbn; eauto].
  rewrite (SyncRouteFacts.updateOne_found db s p _ Hp). by cbn.
Qed.

(** X6. The answers of the update endpoint, by what the request body is.  A
    body that is not JSON and a [null] body are answered 500.  Any other
    JSON value is answered 400 when it has no truthy [passId], which is the
    case of every number, boolean, string and array; 404 when its [passId] is
    a non-empty string that names no stored pass, or is truthy without being
    a string or an object; and 200, with the visitor fields written, when it
    is a non-empty string that names a stored pass.  Whenever the endpoint
    answers something other than 200, the answer carries an error message
    and no pass, and the store is untouched. *)
Theorem put_answers (db : passes) (now : Z) :
  (forall m,
     PUT_json db now (Malformed m) = Some (db, mkAnswer 500 (Some m) None))
  /\ PUT_json db now (Json VNull)
     = Some (db, mkAnswer 500 (Some cannotDestructure) None)
  /\ (forall v, v ≠ VNull -> truthy (ownProperties v !! "passId") = false ->
        PUT_json db now (Json v)
        = Some (db, mkAnswer 400 (Some "Pass ID is required") None))
  /\ (forall v s, ownProperties v !! "passId" = Some (VStr s) -> s ≠ "" ->
        db !! s = None ->
        PUT_json db now (Json v)
        = Some (db, mkAnswer 404 (Some "Pass not found") None))
  /\ (forall v x, ownProperties v !! "passId" = Some x -> truthy (Some x) = true ->
        (forall s, x ≠ VStr s) -> (forall o, x ≠ VObj o) ->
        PUT_json db now (Json v)
        = Some (db, mkAnswer 404 (Some "Pass not found") None))
  /\ (forall v s p, ownProperties v !! "passId" = Some (VStr s) -> s ≠ "" ->
        db !! s = Some p ->
        let body := ownProperties v in
        let p' := setVisitor (body !! "name") (body !! "mobile") (body !! "city")
                    (body !! "age") now p in
        PUT_json db now (Json v)
        = Some (<[s := p']> db, mkAnswer 200 None (Some (view s p'))))
  /\ (forall parsed db' answer,
        PUT_json db now parsed = Some (db', answer) -> status answer ≠ 200%nat ->
        db' = db /\ pass answer = None /\ is_Some (error answer)).
Proof.
  assert (Hjson : forall v, v ≠ VNull ->
            (forall o, ownProperties v !! "passId" ≠ Some (VObj o)) ->
            PUT_json db now (Json v) = Some (PUT db now (ownProperties v))).
  { intros v Hv Hno. unfold PUT_json.
    destruct v; try done;
      destruct (_ !! "passId") as [[] |] eqn:Hid; try done;
      by destruct (Hno _ eq_refl). }
  assert (Hnull : forall v k x, ownProperties v !! k = Some x -> v ≠ VNull).
  { by intros v k x Hx ->. }
  split; [done |]. split; [done |].
  split; [| split; [| split; [| split]]].
  - intros v Hv Ht. rewrite Hjson; [| done |].
    + by rewrite PUT_unnamed.
    + intros o Ho. by rewrite Ho in Ht.
  - intros v s Hid Hne Hnone. rewrite Hjson; [| by eapply Hnull |].
    + by rewrite (UpdateRouteFacts.PUT_missing db now _ s Hid Hne Hnone).
    + intros o Ho. congruence.
  - intros v x Hid Ht Hs Ho. rewrite Hjson; [| by eapply Hnull |].
    + unfold PUT. rewrite Hid, Ht. cbn [negb].
      destruct x; try done. by destruct (Hs s).
    + intros o Ho'. rewrite Hid in Ho'. injection Ho' as ->. by destruct (Ho o).
  - intros v s p Hid Hne Hp. cbn zeta. rewrite Hjson; [| by eapply Hnull |].
    + by rewrite (UpdateRouteFacts.PUT_found db now _ s p Hid Hne Hp).
    + intros o Ho. congruence.
  - intros parsed db' answer Hres Hst.
    destruct parsed as [m | v].
    + injection Hres as <- <-. cbn. eauto.
    + destruct (decide (v = VNull)) as [-> | Hv].
      * injection Hres as <- <-. cbn. eauto.
      * assert (Hput : (db', answer) = PUT db now (ownProperties v)).
        { unfold PUT_json in Hres.
          destruct v; try done;
            destruct (_ !! "passId") as [[] |]; try done; congruence. }
        pose proof (PUT_not_ok db now (ownProperties v)) as H.
        rewrite <- Hput in H. by apply H.
Qed.

Lemma setVisitor_overwrites
    (n1 m1 c1 a1 n2 m2 c2 a2 : option value) (t1 t2 : Z) (p : Pass) :
  setVisitor n2 m2 c2 a2 t2 (setVisitor n1 m1 c1 a1 t1 p)
  = setVisitor n2 m2 c2 a2 t2 p.
Proof.
  unfold setVisitor. cbn [updatedAt fields]. f_equal.
  apply map_eq. intros k.
  destruct (decide (k = "name")) as [-> | ?]; [by rewrite !lookup_insert_eq |].
  rewrite !(lookup_insert_ne _ "name") by done.
  destruct (decide (k = "mobile")) as [-> | ?]; [by rewrite !lookup_insert_eq |].
  rewrite !(lookup_insert_ne _ "mobile") by done.
  destruct (decide (k = "city")) as [-> | ?]; [by rewrite !lookup_insert_eq |].
  rewrite !(lookup_insert_ne _ "city") by done.
  destruct (decide (k = "age")) as [-> | ?]; [by rewrite !lookup_insert_eq |].
  by repeat (rewrite lookup_insert_ne by done).
Qed.

(** X7. The last request wins entirely: when two requests for the same stored
    pass are served one after the other, the store ends exactly as if only
    the second had been served; nothing of the first survives, not even a
    field the second leaves out. *)
Theorem last_put_wins
    (db : passes) (now1 now2 : Z) (body1 body2 : obj) (s : string) :
  body1 !! "passId" = Some (VStr s) -> body2 !! "passId" = Some (VStr s) ->
  s ≠ "" -> is_Some (db !! s) ->
  fst (PUT (fst (PUT db now1 body1)) now2 body2) = fst (PUT db now2 body2).
Proof.
  intros H1 H2 Hne [p Hp].
  rewrite (UpdateRouteFacts.PUT_found db now1 body1 s p H1 Hne Hp).
  rewrite (UpdateRouteFacts.PUT_found db now2 body2 s p H2 Hne Hp).
  cbn [fst].
  rewrite (UpdateRouteFacts.PUT_found _ now2 body2 s _ H2 Hne (lookup_insert_eq _ _ _)).
  cbn [fst]. by rewrite insert_insert_eq, setVisitor_overwrites.
Qed.

(** X8. A visitor reads back what was written: after a successful update,
    the details endpoint answers 200 for that pass with the visitor fields as
    the request had them ([null] for a field it left out) and [updatedAt] at
    the time of the update, while [eventId], [status], [createdAt] and
    [usedAt] read as before the update. *)
Theorem details_after_update
    (db : passes) (now : Z) (body : obj) (s : string) (p : Pass) :
  body !! "passId" = Some (VStr s) -> s ≠ "" -> db !! s = Some p ->
  exists d,
    PassRoute.GET (fst (PUT db now body)) s = PassRoute.mkAnswer 200 None (Some d)
    /\ PassRoute.detailPassId d = s
    /\ PassRoute.detailName d = Some (bson (body !! "name"))
    /\ PassRoute.detailMobile d = Some (bson (body !! "mobile"))
    /\ PassRoute.detailCity d = Some (bson (body !! "city"))
    /\ PassRoute.detailAge d = Some (bson (body !! "age"))
    /\ PassRoute.detailUpdatedAt d = now
    /\ PassRoute.detailEventId d = fields p !! "eventId"
    /\ PassRoute.detailStatus d = fields p !! "status"
    /\ PassRoute.detailCreatedAt d = fields p !! "createdAt"
    /\ PassRoute.detailUsedAt d = fields p !! "usedAt".
Proof.
  intros Hb Hne Hp.
  rewrite (UpdateRouteFacts.PUT_found db now body s p Hb Hne Hp). cbn [fst].
  unfold PassRoute.GET.
  assert (String.eqb s "" = false) as -> by (by apply String.eqb_neq).
  cbn [findOne]. rewrite lookup_insert_eq.
  eexists. split; [reflexivity |].
  unfold PassRoute.details, setVisitor.
  cbn [PassRoute.detailPassId PassRoute.detailName PassRoute.detailMobile
       PassRoute.detailCity PassRoute.detailAge PassRoute.detailUpdatedAt
       PassRoute.detailEventId PassRoute.detailStatus PassRoute.detailCreatedAt
       PassRoute.detailUsedAt updatedAt fields].
  repeat split;
    repeat (rewrite lookup_insert_eq || rewrite lookup_insert_ne by done);
    done.
Qed.

End VisitorFacts.

(** ** Checking a visitor in at the status endpoint *)

Module CheckInFacts.
Import StatusRoute.

(** X20. Check-in is first come, first served.  For a signed-in user, a
    request to mark a stored pass ['used'] that is not yet ['used'] is
    answered 200: the pass gets [status = 'used'] and [usedAt] and
    [updatedAt] at the server clock, and nothing else of it changes.  The
    same request served again later is answered 409 with the record as the
    first request left it, and changes nothing: [usedAt] stays at the time of
    the first check-in. *)
Theorem check_in_is_first_come
    (db : passes) (now later : Z) (body : obj) (s : string) (p : Pass) :
  body !! "passId" = Some (VStr s) -> s ≠ "" ->
  body !! "status" = Some (VStr "used") ->
  db !! s = Some p -> fields p !! "status" ≠ Some (VStr "used") ->
  let p' := setStatus (VStr "used") now p in
  PATCH db now true body = (<[s := p']> db, mkAnswer 200 None (Some p'))
  /\ fields p' !! "status" = Some (VStr "used")
  /\ fields p' !! "usedAt" = Some (VDate now)
  /\ updatedAt p' = now
  /\ (forall k, k ≠ "status" -> k ≠ "usedAt" -> fields p' !! k = fields p !! k)
  /\ PATCH (<[s := p']> db) later true body
     = (<[s := p']> db,
        mkAnswer 409 (Some "Pass is already marked as used") (Some p')).
Proof.
  intros Hid Hne Hst Hp Hnot p'.
  assert (Hused : fields p' !! "status" = Some (VStr "used"))
    by (subst p'; cbn; by rewrite lookup_insert_eq).
  assert (Hstart : forall db' t, PATCH db' t true body
            = match db' !! s with
              | Some q =>
                  if bool_decide (fields q !! "status" = Some (VStr "used"))
                  then (db', mkAnswer 409 (Some "Pass is already marked as used")
                               (Some q))
                  else
                    let '(db'', _) :=
                      updateOne db' (Some s) (setStatus (VStr "used") t) in
                    if decide (setStatus (VStr "used") t q = q)
                    then (db'', mkAnswer 500 (Some "Failed to update pass status") None)
                    else (db'', mkAnswer 200 None (db'' !! s))
              | None => (db', mkAnswer 404 (Some "Pass not found") None)
              end).
  { intros db' t. unfold PATCH. rewrite Hid, Hst.
    cbn [negb truthy UpdateRoute.findByValue bson].
    assert (String.eqb s "" = false) as -> by (by apply String.eqb_neq).
    cbn [negb]. rewrite bool_decide_eq_true_2 by done. cbn [orb negb andb].
    destruct (db' !! s) as [q |] eqn:Hq; [| done].
    rewrite andb_true_r.
    destruct (bool_decide (fields q !! "status" = Some (VStr "used"))); [done |].
    rewrite (SyncRouteFacts.updateOne_found db' s q _ Hq).
    by destruct (decide (setStatus (VStr "used") t q = q)). }
  split; [| split; [done |]; split; [| split; [done |]; split]].
  - rewrite Hstart, Hp. rewrite bool_decide_eq_false_2 by done.
    rewrite (SyncRouteFacts.updateOne_found db s p _ Hp).
    rewrite decide_False; [by rewrite lookup_insert_eq |].
    intros Heq. apply Hnot. fold p' in Heq. by rewrite <- Heq.
  - subst p'. cbn. rewrite lookup_insert_ne by done.
    by rewrite lookup_insert_eq, decide_True.
  - intros k H1 H2. subst p'. cbn. by rewrite !lookup_insert_ne.
  - rewrite Hstart, lookup_insert_eq. by rewrite bool_decide_eq_true_2.
Qed.

End CheckInFacts.

(** ** The queue under its operations *)

Module QueueFacts.
Import Dexie DexieSpec SyncSpec QueueSpec.

Lemma built_nextId (t : Table) : built t -> (1 <= nextId t)%nat.
Proof. induction 1; cbn; try done; lia. Qed.

Lemma remove_distinct (n : nat) (l : list PendingOperation) :
  NoDup (id <$> l) -> NoDup (id <$> filter (fun op => id op ≠ n) l).
Proof.
  induction l as [| o l IH]; intros Hnd; [constructor |].
  rewrite fmap_cons in Hnd. apply NoDup_cons in Hnd as [Hno Hnd].
  rewrite filter_cons. case_decide; [| by apply IH].
  rewrite fmap_cons. apply NoDup_cons. split; [| by apply IH].
  intros (x & Hx & Hin)%list_elem_of_fmap_1. apply Hno. rewrite Hx.
  apply list_elem_of_fmap_2. by apply list_elem_of_filter in Hin as [_ ?].
Qed.

Lemma built_ids (t : Table) :
  built t ->
  NoDup (id <$> rows t) /\ Forall (fun o => (1 <= id o < nextId t)%nat) (rows t).
Proof.
  induction 1 as [| operation t Hb [IHn IHb] | n t Hb [IHn IHb]
                 | n k t Hb [IHn IHb]].
  - split; constructor.
  - cbn [queueOperation fst rows nextId]. split.
    + rewrite fmap_app. apply NoDup_app. split; [done |]. split.
      * intros x Hx Hin. apply list_elem_of_singleton in Hin. subst x.
        apply list_elem_of_fmap_1 in Hx as (o & Ho & Hin).
        rewrite Forall_forall in IHb. specialize (IHb o Hin). cbn in Ho. lia.
      * apply NoDup_singleton.
    + apply Forall_app. split.
      * eapply Forall_impl; [exact IHb |]. intros o Ho. cbn in Ho. lia.
      * constructor; [| constructor]. cbn.
        pose proof (built_nextId t Hb). lia.
  - split.
    + cbn [removePendingOperation rows]. by apply remove_distinct.
    + cbn [removePendingOperation rows nextId].
      apply Forall_forall. intros o [_ Ho]%list_elem_of_filter.
      rewrite Forall_forall in IHb. by apply IHb.
  - split.
    + cbn [updatePendingOperationRetryCount rows].
      rewrite <- list_fmap_compose.
      erewrite list_fmap_ext; [exact IHn |].
      intros i o _. cbn. by destruct (decide (id o = n)).
    + cbn [updatePendingOperationRetryCount rows nextId].
      apply Forall_forall. intros o' (o & -> & Ho)%list_elem_of_fmap_1.
      rewrite Forall_forall in IHb. specialize (IHb o Ho).
      by destruct (decide (id o = n)).
Qed.

(** X9. Ids are never reused: in every table the application can reach, no
    two rows share an id and every id lies below the key generator, so the id
    that [queueOperation] hands out is one no row has. *)
Theorem queue_ids_are_fresh (t : Table) (operation : PendingOperation) :
  built t ->
  distinctIds t
  /\ Forall (fun o => (1 <= id o < nextId t)%nat) (rows t)
  /\ ~ (snd (queueOperation operation t) ∈ (id <$> rows t))
  /\ distinctIds (fst (queueOperation operation t)).
Proof.
  intros Hb. destruct (built_ids t Hb) as [Hn Hf].
  split; [exact Hn |]. split; [exact Hf |]. split.
  - cbn [queueOperation snd]. intros (o & Ho & Hin)%list_elem_of_fmap_1.
    rewrite Forall_forall in Hf. specialize (Hf o Hin). lia.
  - exact (proj1 (built_ids _ (built_queue operation t Hb))).
Qed.

(** *** Keeping the index order *)

Lemma indexInsert_fmap (f : PendingOperation -> PendingOperation)
    (op : PendingOperation) (l : list PendingOperation) :
  (forall a b, indexLeb (f a) (f b) = indexLeb a b) ->
  f <$> indexInsert op l = indexInsert (f op) (f <$> l).
Proof.
  intros Hf. induction l as [| x l IH]; [done |].
  cbn [indexInsert]. rewrite fmap_cons. cbn [indexInsert]. rewrite Hf.
  destruct (indexLeb op x); [done |]. by rewrite fmap_cons, IH.
Qed.

Lemma orderBy_fmap (f : PendingOperation -> PendingOperation)
    (l : list PendingOperation) :
  (forall a b, indexLeb (f a) (f b) = indexLeb a b) ->
  orderByCreatedAt (f <$> l) = f <$> orderByCreatedAt l.
Proof.
  intros Hf. induction l as [| x l IH]; [done |].
  rewrite fmap_cons. cbn [orderByCreatedAt fold_right].
  fold (orderByCreatedAt l). fold (orderByCreatedAt (f <$> l)).
  by rewrite IH, indexInsert_fmap.
Qed.

(** X10. Raising a retry count does not reorder the queue: the pending list
    after [updatePendingOperationRetryCount] is the pending list before, with
    the retry count replaced in the rows of that id and every other row, and
    every position, as it was. *)
Theorem retry_update_keeps_order (n retry : nat) (t : Table) :
  getPendingOperations (updatePendingOperationRetryCount n retry t)
  = (fun op => if decide (id op = n) then withRetryCount retry op else op)
      <$> getPendingOperations t.
Proof.
  unfold getPendingOperations, updatePendingOperationRetryCount. cbn [rows].
  apply orderBy_fmap. intros a b.
  by destruct (decide (id a = n)), (decide (id b = n)).
Qed.

Lemma indexInsert_head (op : PendingOperation) (l : list PendingOperation) :
  Forall (indexLe op) l -> indexInsert op l = op :: l.
Proof.
  destruct 1 as [| x l Hx _]; [done |]. cbn [indexInsert].
  by apply DexieFacts.indexLeb_le in Hx as ->.
Qed.

Lemma filter_indexInsert (P : PendingOperation -> Prop)
    `{!forall o, Decision (P o)} (op : PendingOperation)
    (l : list PendingOperation) :
  StronglySorted indexLe l ->
  filter P (indexInsert op l)
  = if decide (P op) then indexInsert op (filter P l) else filter P l.
Proof.
  induction 1 as [| x l Hs IH Hx]; cbn [indexInsert].
  - rewrite filter_cons. by destruct (decide (P op)).
  - destruct (indexLeb op x) eqn:Hle.
    + rewrite filter_cons. destruct (decide (P op)) as [Hop | Hop]; [| done].
      symmetry. apply indexInsert_head.
      apply DexieFacts.indexLeb_le in Hle.
      rewrite filter_cons. destruct (decide (P x)).
      * constructor; [done |]. apply Forall_forall. intros y Hy.
        apply list_elem_of_filter in Hy as [_ Hy].
        rewrite Forall_forall in Hx.
        eapply DexieFacts.indexLe_trans; [exact Hle | by apply Hx].
      * apply Forall_forall. intros y Hy.
        apply list_elem_of_filter in Hy as [_ Hy].
        rewrite Forall_forall in Hx.
        eapply DexieFacts.indexLe_trans; [exact Hle | by apply Hx].
    + rewrite !filter_cons, IH.
      destruct (decide (P x)), (decide (P op)); try done.
      cbn [indexInsert]. by rewrite Hle.
Qed.

Lemma orderBy_filter (P : PendingOperation -> Prop)
    `{!forall o, Decision (P o)} (l : list PendingOperation) :
  orderByCreatedAt (filter P l) = filter P (orderByCreatedAt l).
Proof.
  induction l as [| x l IH]; [done |].
  cbn [orderByCreatedAt fold_right]. fold (orderByCreatedAt l).
  rewrite filter_indexInsert by apply DexieFacts.orderBy_sorted.
  rewrite filter_cons. destruct (decide (P x)); [| done].
  cbn [orderByCreatedAt fold_right]. fold (orderByCreatedAt (filter P l)).
  by rewrite IH.
Qed.

(** X11. Removal takes out exactly the rows of that id and keeps the others
    in their order; removing an id that is not in the queue changes nothing,
    and removing twice is removing once. *)
Theorem remove_is_exact (n : nat) (t : Table) :
  getPendingOperations (removePendingOperation n t)
  = filter (fun op => id op ≠ n) (getPendingOperations t)
  /\ (n ∉ (id <$> rows t) -> removePendingOperation n t = t)
  /\ removePendingOperation n (removePendingOperation n t)
     = removePendingOperation n t.
Proof.
  split; [apply orderBy_filter |]. split.
  - intros Hn. unfold removePendingOperation. destruct t as [l k]. cbn [rows nextId] in *.
    f_equal. induction l as [| o l IH]; [done |].
    rewrite fmap_cons in Hn. apply not_elem_of_cons in Hn as [Hne Hn].
    rewrite filter_cons, decide_True by done. by rewrite IH.
  - unfold removePendingOperation. cbn [rows nextId]. f_equal.
    induction (rows t) as [| o l IH]; [done |].
    rewrite filter_cons. destruct (decide (id o ≠ n)); [| done].
    by rewrite filter_cons, decide_True, IH.
Qed.

(** X12. Queueing and then removing is a round trip: on a reachable table,
    [queueOperation] returns the key generator's value, the operation is in
    the pending list under that id with its own fields, the count is one
    more, and removing that id gives back the rows and the pending list there
    were before. *)
Theorem queue_then_remove (t : Table) (operation : PendingOperation) :
  built t ->
  let t' := fst (queueOperation operation t) in
  let n := snd (queueOperation operation t) in
  n = nextId t
  /\ withId n operation ∈ getPendingOperations t'
  /\ getPendingOperationsCount t' = S (getPendingOperationsCount t)
  /\ rows (removePendingOperation n t') = rows t
  /\ getPendingOperations (removePendingOperation n t') = getPendingOperations t.
Proof.
  intros Hb. cbn zeta. cbn [queueOperation fst snd].
  destruct (built_ids t Hb) as [_ Hf].
  assert (Hrows : filter (fun op => id op ≠ nextId t)
                    (rows t ++ [withId (nextId t) operation]) = rows t).
  { rewrite filter_app, filter_cons, decide_False, filter_nil, app_nil_r
      by (cbn; intros ?; done).
    clear -Hf. induction Hf as [| o l Ho _ IH]; [done |].
    rewrite filter_cons, decide_True by lia. by rewrite IH. }
  split; [done |]. split.
  - unfold getPendingOperations. cbn [rows].
    rewrite (DexieFacts.orderBy_perm _). apply elem_of_app. right. by left.
  - split.
    + unfold getPendingOperationsCount. cbn [rows]. rewrite length_app. cbn. lia.
    + unfold getPendingOperations, removePendingOperation. cbn [rows].
      by rewrite Hrows.
Qed.

End QueueFacts.

(** ** Whole drains of the sync engine *)

Module EngineFacts.
Import Sync SyncSpec EngineSpec DexieSpec.

Section Engine.

Variable World : Type.
Variable fetch : Request -> World -> Fetched * World.

Local Abbreviation Env := (Sync.Env World).
Local Abbreviation processSingleOperation := (Sync.processSingleOperation World fetch).
Local Abbreviation turn := (Sync.turn World fetch).
Local Abbreviation syncPendingOperations := (Sync.syncPendingOperations World fetch).

(** X13. Oldest first, one request each: a drain sends exactly one request
    per operation that was pending at its start, in ascending order of
    [createdAt] with ties in enqueue order; with an empty queue it sends
    nothing and returns the all-success result with the device untouched. *)
Theorem drain_sends_oldest_first (env : Env) :
  let pending := Dexie.getPendingOperations (pendingOps env) in
  Permutation pending (Dexie.rows (pendingOps env))
  /\ StronglySorted indexLe pending
  /\ fetches (trace (fst (syncPendingOperations env)))
     = fetches (trace env) ++ (requestOf <$> pending)
  /\ (Dexie.rows (pendingOps env) = [] ->
        syncPendingOperations env = (env, emptyResult)).
Proof.
  cbn zeta. split; [apply DexieFacts.orderBy_perm |].
  split; [apply DexieFacts.orderBy_sorted |].
  split; [apply SyncFacts.sync_fetches |].
  intros Hrows. unfold Sync.syncPendingOperations, Dexie.getPendingOperations.
  by rewrite Hrows.
Qed.

(** *** When every request succeeds *)

Lemma filter_all {A : Type} (P : A -> Prop) `{!forall x, Decision (P x)}
    (l : list A) :
  (forall x, x ∈ l -> P x) -> filter P l = l.
Proof.
  induction l as [| x l IH]; intros Hall; [done |].
  rewrite filter_cons_True by (apply Hall; by left).
  rewrite IH; [done |]. intros y Hy. apply Hall. by right.
Qed.

Lemma filter_none {A : Type} (P : A -> Prop) `{!forall x, Decision (P x)}
    (l : list A) :
  (forall x, x ∈ l -> ~ P x) -> filter P l = [].
Proof.
  induction l as [| x l IH]; intros Hall; [done |].
  rewrite filter_cons_False by (apply Hall; by left).
  apply IH. intros y Hy. apply Hall. by right.
Qed.

Lemma turn_ok (env : Env) (r : SyncResult) (op : PendingOperation) :
  answersOk fetch ->
  turn (env, r) op
  = ({| pendingOps := Dexie.removePendingOperation (id op) (pendingOps env);
        world := snd (fetch (requestOf op) (world env));
        trace := trace env ++ [Fetch (requestOf op)] |},
     {| success := success r; synced := S (synced r);
        failed := failed r; errors := errors r |}).
Proof.
  intros Hok. unfold Sync.turn. rewrite SyncFacts.dispatch_effect.
  destruct (Hok (requestOf op) (world env)) as (resp & Hresp & Hresp').
  unfold settle. by rewrite Hresp, Hresp'.
Qed.

Lemma drain_ok (l : list PendingOperation) (env : Env) (r : SyncResult) :
  answersOk fetch ->
  let st := fold_left turn l (env, r) in
  Dexie.rows (pendingOps (fst st))
  = filter (fun o => id o ∉ id <$> l) (Dexie.rows (pendingOps env))
  /\ Dexie.nextId (pendingOps (fst st)) = Dexie.nextId (pendingOps env)
  /\ trace (fst st) = trace env ++ (Fetch ∘ requestOf <$> l)
  /\ snd st = {| success := success r; synced := (synced r + length l)%nat;
                 failed := failed r; errors := errors r |}.
Proof.
  intros Hok. revert env r. induction l as [| o l IH]; intros env r;
    cbn [fold_left].
  - cbn. rewrite app_nil_r, Nat.add_0_r. split; [| by destruct r].
    symmetry. apply filter_all. intros x _. apply not_elem_of_nil.
  - rewrite turn_ok by done.
    destruct (IH {| pendingOps := Dexie.removePendingOperation (id o) (pendingOps env);
                    world := snd (fetch (requestOf o) (world env));
                    trace := trace env ++ [Fetch (requestOf o)] |}
                 {| success := success r; synced := S (synced r);
                    failed := failed r; errors := errors r |})
      as (Hrows & Hnext & Htr & Hres).
    cbn zeta. rewrite Hrows, Hnext, Htr, Hres.
    cbn [pendingOps trace Dexie.removePendingOperation Dexie.rows Dexie.nextId
         success synced failed errors length].
    split; [| split; [done | split]].
    + rewrite list_filter_filter. apply list_filter_iff. intros x.
      rewrite fmap_cons, not_elem_of_cons. tauto.
    + by rewrite fmap_cons, <- app_assoc.
    + f_equal. lia.
Qed.

(** X14. When the server accepts every request, one drain empties the queue:
    afterwards no row is left, every operation read at the start counts as
    synced, nothing failed, [success] is true, and the engine has only
    fetched, never waited. *)
Theorem accepted_drain_empties_queue (env : Env) :
  answersOk fetch ->
  let after := syncPendingOperations env in
  Dexie.rows (pendingOps (fst after)) = []
  /\ Dexie.nextId (pendingOps (fst after)) = Dexie.nextId (pendingOps env)
  /\ snd after = {| success := true;
                    synced := length (Dexie.rows (pendingOps env));
                    failed := 0; errors := [] |}
  /\ waits (trace (fst after)) = waits (trace env).
Proof.
  intros Hok. cbn zeta.
  pose proof (DexieFacts.orderBy_perm (Dexie.rows (pendingOps env))) as Hperm.
  fold (Dexie.getPendingOperations (pendingOps env)) in Hperm.
  unfold Sync.syncPendingOperations.
  destruct (Dexie.getPendingOperations (pendingOps env)) as [| o l] eqn:Hp.
  - apply Permutation_nil_l in Hperm. cbn [length Nat.eqb fst snd].
    by rewrite <- Hperm.
  - cbn [length Nat.eqb].
    destruct (drain_ok (o :: l) env emptyResult Hok) as (Hrows & Hnext & Htr & Hres).
    destruct (fold_left turn (o :: l) (env, emptyResult)) as [env' r].
    cbn [fst snd] in *. subst r.
    cbn [success synced failed errors emptyResult Nat.add Nat.eqb].
    split; [| split; [done | split]].
    + rewrite Hrows. apply filter_none. intros x Hx Hnot. apply Hnot.
      apply list_elem_of_fmap_2. by rewrite Hperm.
    + f_equal. by rewrite <- Hperm.
    + rewrite Htr. unfold waits. rewrite omap_app.
      rewrite <- (app_nil_r (omap _ (trace env))) at 2. f_equal.
      clear. induction (o :: l) as [| x xs IH]; [done |]. by rewrite fmap_cons.
Qed.

(** *** Back-off waits *)

Lemma waits_app (tr1 tr2 : list Event) : waits (tr1 ++ tr2) = waits tr1 ++ waits tr2.
Proof. apply omap_app. Qed.

Lemma backoff_bound (rc : nat) :
  (rc < MAX_RETRIES)%nat -> (RETRY_DELAY_MS * 2 ^ rc <= 4000)%nat.
Proof.
  unfold MAX_RETRIES, RETRY_DELAY_MS. intros Hrc.
  assert (H : rc = 0%nat \/ rc = 1%nat \/ rc = 2%nat) by lia.
  destruct H as [-> | [-> | ->]]; cbn [Nat.pow]; lia.
Qed.

Lemma turn_waits (env : Env) (r : SyncResult) (op : PendingOperation) :
  exists ws,
    waits (trace (fst (turn (env, r) op))) = waits (trace env) ++ ws
    /\ Forall (fun ms => (1000 <= ms <= 4000)%nat) ws
    /\ (length (retryables (snd (turn (env, r) op)))
        = length (retryables r) + length ws)%nat.
Proof.
  rewrite SyncFacts.turn_trace, SyncFacts.dispatch_effect. cbn [snd].
  unfold Sync.turn. rewrite SyncFacts.dispatch_effect.
  unfold eventsOf, retryables.
  destruct (settle _ _) as [| m]; cbn [snd errors].
  - exists []. rewrite waits_app, app_nil_r. cbn. split; [by rewrite app_nil_r |].
    split; [constructor | lia].
  - destruct (retryCount op <? MAX_RETRIES)%nat eqn:Hrc; cbn [snd errors].
    + exists [(RETRY_DELAY_MS * 2 ^ retryCount op)%nat].
      rewrite waits_app. split; [done |]. split.
      * constructor; [| constructor]. apply Nat.ltb_lt in Hrc.
        pose proof (backoff_bound _ Hrc).
        assert (1 <= 2 ^ retryCount op)%nat
          by (apply Nat.neq_0_lt_0, Nat.pow_nonzero; lia).
        unfold RETRY_DELAY_MS in *. split; lia.
      * rewrite filter_app, length_app. by rewrite filter_cons_True.
    + exists []. rewrite waits_app. cbn [waits omap]. rewrite app_nil_r.
      split; [by rewrite app_nil_r |]. split; [constructor |].
      rewrite filter_app, length_app. by rewrite filter_cons_False.
Qed.

Lemma drain_waits (l : list PendingOperation) (st : Env * SyncResult) :
  exists ws,
    waits (trace (fst (fold_left turn l st))) = waits (trace (fst st)) ++ ws
    /\ Forall (fun ms => (1000 <= ms <= 4000)%nat) ws
    /\ (length (retryables (snd (fold_left turn l st)))
        = length (retryables (snd st)) + length ws)%nat.
Proof.
  revert st. induction l as [| o l IH]; intros [env r]; cbn [fold_left].
  - exists []. rewrite app_nil_r. cbn. split; [done |]. split; [constructor | lia].
  - destruct (turn_waits env r o) as (ws1 & Hw1 & Hb1 & Hl1).
    destruct (IH (turn (env, r) o)) as (ws2 & Hw2 & Hb2 & Hl2).
    exists (ws1 ++ ws2). rewrite Hw2, Hw1, Hl2, Hl1, <- app_assoc.
    cbn [fst snd]. split; [done |]. split; [by apply Forall_app |].
    rewrite length_app. lia.
Qed.

(** X15. Back-off is bounded: each wait a drain adds is between one and four
    seconds (1000, 2000 or 4000 ms), and it waits exactly once for every
    failure it reports as retryable, so a drain of [n] pending operations
    never waits more than [n] times. *)
Theorem drain_waits_are_bounded (env : Env) :
  let after := syncPendingOperations env in
  exists ws,
    waits (trace (fst after)) = waits (trace env) ++ ws
    /\ Forall (fun ms => (1000 <= ms <= 4000)%nat) ws
    /\ length ws = length (retryables (snd after))
    /\ (length ws <= length (Dexie.getPendingOperations (pendingOps env)))%nat.
Proof.
  cbn zeta.
  pose proof (SyncFacts.drain_tallies World fetch
                (Dexie.getPendingOperations (pendingOps env)) env emptyResult 0
                (conj eq_refl eq_refl)) as Hc.
  unfold Sync.syncPendingOperations.
  destruct (length (Dexie.getPendingOperations (pendingOps env)) =? 0)%nat.
  - exists []. rewrite app_nil_r. cbn. split; [done |]. split; [constructor |].
    split; [done | lia].
  - destruct (drain_waits (Dexie.getPendingOperations (pendingOps env))
                (env, emptyResult)) as (ws & Hw & Hb & Hl).
    destruct (fold_left turn _ (env, emptyResult)) as [env' r].
    cbn [fst snd] in *. exists ws. split; [done |]. split; [done |].
    assert (Heq : length ws = length (retryables r)) by (cbn in Hl; lia).
    split; [exact Heq |].
    destruct Hc as (Hn & He). rewrite Heq. unfold retryables.
    cbn [errors synced failed].
    pose proof (length_filter (fun e => retryable e = true) (errors r)). lia.
Qed.

(** *** What stays in the queue *)

Lemma length_rows_split (n : nat) (t : Dexie.Table) :
  (length (Dexie.rows (Dexie.removePendingOperation n t))
   + length (rowsWithId n t) = length (Dexie.rows t))%nat.
Proof.
  unfold rowsWithId, Dexie.removePendingOperation. cbn [Dexie.rows].
  induction (Dexie.rows t) as [| o l IH]; [done |].
  rewrite !filter_cons. destruct (decide (id o = n)) as [Heq | Hne].
  - rewrite decide_False by (intros Hc; by apply Hc). cbn [length]. lia.
  - rewrite decide_True by done. cbn [length]. lia.
Qed.

Lemma turn_remaining (env : Env) (r : SyncResult) (op : PendingOperation) :
  length (rowsWithId (id op) (pendingOps env)) = 1%nat ->
  (length (Dexie.rows (pendingOps (fst (turn (env, r) op)))) + 1
   + length (retryables r)
   = length (Dexie.rows (pendingOps env))
     + length (retryables (snd (turn (env, r) op))))%nat
  /\ Dexie.nextId (pendingOps (fst (turn (env, r) op)))
     = Dexie.nextId (pendingOps env).
Proof.
  intros Hone.
  pose proof (length_rows_split (id op) (pendingOps env)) as Hsplit.
  unfold Sync.turn. rewrite SyncFacts.dispatch_effect. unfold retryables.
  destruct (settle _ _) as [| m];
    [| destruct (retryCount op <? MAX_RETRIES)%nat];
    cbn [fst snd pendingOps onQueue wait errors];
    (split; [| done]).
  - lia.
  - unfold Dexie.updatePendingOperationRetryCount. cbn [Dexie.rows].
    rewrite length_fmap, filter_app, length_app.
    rewrite filter_cons_True by done. rewrite filter_nil. cbn [length]. lia.
  - rewrite filter_app, length_app.
    rewrite filter_cons_False by done. rewrite filter_nil. cbn [length]. lia.
Qed.

Lemma drain_remaining (l : list PendingOperation) (st : Env * SyncResult) :
  NoDup (id <$> l) ->
  (forall o, o ∈ l -> length (rowsWithId (id o) (pendingOps (fst st))) = 1%nat) ->
  (length (Dexie.rows (pendingOps (fst (fold_left turn l st)))) + length l
   + length (retryables (snd st))
   = length (Dexie.rows (pendingOps (fst st)))
     + length (retryables (snd (fold_left turn l st))))%nat
  /\ Dexie.nextId (pendingOps (fst (fold_left turn l st)))
     = Dexie.nextId (pendingOps (fst st)).
Proof.
  revert st. induction l as [| o l IH]; intros [env r] Hnd Hone;
    cbn [fold_left fst snd length].
  - split; [lia | done].
  - rewrite fmap_cons in Hnd. apply NoDup_cons in Hnd as [Hno Hnd].
    destruct (turn_remaining env r o) as [Hlen Hnext].
    { apply Hone. by left. }
    destruct (IH (turn (env, r) o) Hnd) as [Hlen' Hnext'].
    { intros o' Ho'. rewrite (surjective_pairing (turn (env, r) o)).
      rewrite <- surjective_pairing.
      rewrite SyncFacts.turn_frame.
      - apply Hone. by right.
      - intros Heq. apply Hno. rewrite Heq. by apply list_elem_of_fmap_2. }
    split; [lia | congruence].
Qed.

(** X16. What a drain leaves behind is what it will retry: on a queue with
    distinct ids, the number of rows left after a drain is the number of
    failures the result reports as retryable (every synced operation and
    every failure reported as not retryable is gone), and the key generator
    is where it was. *)
Theorem drain_leaves_the_retryable (env : Env) :
  distinctIds (pendingOps env) ->
  let after := syncPendingOperations env in
  length (Dexie.rows (pendingOps (fst after))) = length (retryables (snd after))
  /\ Dexie.nextId (pendingOps (fst after)) = Dexie.nextId (pendingOps env).
Proof.
  intros Hnd. cbn zeta.
  pose proof (DexieFacts.orderBy_perm (Dexie.rows (pendingOps env))) as Hperm.
  fold (Dexie.getPendingOperations (pendingOps env)) in Hperm.
  unfold Sync.syncPendingOperations.
  destruct (Dexie.getPendingOperations (pendingOps env)) as [| o l] eqn:Hp.
  - apply Permutation_nil_l in Hperm. cbn [length Nat.eqb fst snd].
    by rewrite <- Hperm.
  - cbn [length Nat.eqb]. rewrite <- Hp in *.
    destruct (drain_remaining (Dexie.getPendingOperations (pendingOps env))
                (env, emptyResult)) as [Hlen Hnext].
    { unfold distinctIds in Hnd. by rewrite Hperm. }
    { intros x Hx. cbn [fst].
      rewrite (SyncFacts.rowsWithId_unique _ _ Hnd); [done |]. by rewrite <- Hperm. }
    destruct (fold_left turn _ (env, emptyResult)) as [env' r].
    cbn [fst snd] in *. split; [| done].
    rewrite (Permutation_length Hperm) in Hlen.
    unfold retryables in *. cbn [errors emptyResult] in *.
    rewrite filter_nil in Hlen. cbn [length] in Hlen. lia.
Qed.

End Engine.

End EngineFacts.

(** ** A queued visitor update on its way to the server *)

Module DeliveryFacts.
Import Sync SyncSpec Site DeliverySpec.

Lemma body_other (op : PendingOperation) (k : string) :
  k ≠ "passId" -> withPassId op !! k = payload op !! k.
Proof.
  intros Hk. unfold withPassId. rewrite lookup_union_l; [done |].
  destruct (passId op); cbn; by rewrite ?lookup_singleton_ne, ?lookup_empty.
Qed.

Lemma PUT_elsewhere (db : passes) (now : Z) (body : obj) (s : string) :
  body !! "passId" ≠ Some (VStr s) ->
  fst (UpdateRoute.PUT db now body) !! s = db !! s.
Proof.
  intros Hne. unfold UpdateRoute.PUT.
  destruct (negb (truthy (body !! "passId"))); [done |].
  destruct (body !! "passId") as [[| | | s' | | |] |]; try done.
  cbn [UpdateRoute.findByValue]. destruct (db !! s') as [p |] eqn:Hp; [| done].
  rewrite (SyncRouteFacts.updateOne_found db s' p _ Hp). cbn [Nat.eqb fst].
  apply lookup_insert_ne. congruence.
Qed.

Section Server.

Variable elsewhere : Request -> Site -> Fetched * Site.

Local Abbreviation turn := (Sync.turn Site (serve elsewhere)).
Local Abbreviation syncPendingOperations :=
  (Sync.syncPendingOperations Site (serve elsewhere)).

Lemma turn_world (env : Env Site) (r : SyncResult) (op : PendingOperation) :
  world (fst (turn (env, r) op)) = snd (serve elsewhere (requestOf op) (world env)).
Proof.
  unfold Sync.turn. rewrite SyncFacts.dispatch_effect.
  destruct (settle _ _); [| destruct (retryCount op <? MAX_RETRIES)%nat]; done.
Qed.

Lemma serve_update (op : PendingOperation) (w : Site) :
  type op = UpdatePass ->
  serve elsewhere (requestOf op) w
  = let '(db, answer) := UpdateRoute.PUT (store w) (clock w) (withPassId op) in
    (Resolved {| ok := statusOk (UpdateRoute.status answer);
                 json := Data (UpdateRoute.error answer) |},
     {| store := db; clock := clock w + 1; signedIn := signedIn w |}).
Proof.
  intros Ht. unfold serve, requestOf. rewrite Ht. cbn [url method body].
  by rewrite decide_True.
Qed.

Lemma serve_clock (op : PendingOperation) (w : Site) :
  type op = UpdatePass ->
  clock w <= clock (snd (serve elsewhere (requestOf op) w)).
Proof.
  intros Ht. rewrite (serve_update op w Ht).
  destruct (UpdateRoute.PUT (store w) (clock w) (withPassId op)). cbn. lia.
Qed.

Lemma serve_elsewhere (op : PendingOperation) (s : string) (w : Site) :
  type op = UpdatePass -> ~ addresses s op ->
  store (snd (serve elsewhere (requestOf op) w)) !! s = store w !! s.
Proof.
  intros Ht Hno. rewrite (serve_update op w Ht). unfold addresses in Hno.
  pose proof (PUT_elsewhere (store w) (clock w) (withPassId op) s) as HP.
  destruct (UpdateRoute.PUT (store w) (clock w) (withPassId op)). cbn [snd store fst] in *.
  apply HP. intros Hb. by apply Hno.
Qed.

Lemma drain_elsewhere (l : list PendingOperation) (st : Env Site * SyncResult)
    (s : string) :
  Forall (fun o => type o = UpdatePass /\ ~ addresses s o) l ->
  store (world (fst (fold_left turn l st))) !! s = store (world (fst st)) !! s
  /\ clock (world (fst st)) <= clock (world (fst (fold_left turn l st))).
Proof.
  intros Hl. revert st. induction Hl as [| o l [Ht Ho] _ IH]; intros [env r];
    cbn [fold_left]; [split; [done | lia] |].
  destruct (IH (turn (env, r) o)) as [Hst Hcl].
  rewrite Hst. rewrite turn_world in *. cbn [fst].
  split; [by apply serve_elsewhere |].
  pose proof (serve_clock o (world env) Ht). lia.
Qed.

(** X17. A queued visitor update arrives: when the queue holds only
    update-pass operations, one of them for a pass the server has and no other
    addressing that pass, one drain removes the operation from the queue
    without reporting an error for it, and the server then holds the pass with
    the payload's visitor fields ([null] for those the payload lacks), its
    other fields untouched and [updatedAt] no earlier than the server clock at
    the start of the drain. *)
Theorem visitor_update_arrives
    (env : Env Site) (op : PendingOperation) (s : string) (p : Pass) :
  distinctIds (pendingOps env) ->
  Forall (fun o => type o = UpdatePass) (Dexie.rows (pendingOps env)) ->
  op ∈ Dexie.rows (pendingOps env) ->
  addresses s op -> s ≠ "" -> store (world env) !! s = Some p ->
  (forall o, o ∈ Dexie.rows (pendingOps env) -> o ≠ op -> ~ addresses s o) ->
  let after := syncPendingOperations env in
  rowsWithId (id op) (pendingOps (fst after)) = []
  /\ (forall e, e ∈ errors (snd after) -> operationId e ≠ id op)
  /\ exists p',
       store (world (fst after)) !! s = Some p'
       /\ fields p'
          = <["name" := bson (payload op !! "name")]>
              (<["mobile" := bson (payload op !! "mobile")]>
                 (<["city" := bson (payload op !! "city")]>
                    (<["age" := bson (payload op !! "age")]> (fields p))))
       /\ clock (world env) <= updatedAt p'.
Proof.
  intros Hnd Hall Hin [Ht Hb] Hne Hp Hothers after.
  destruct (SyncFacts.pending_split (pendingOps env) op Hnd Hin)
    as (pre & post & Hsnap & Hpre & Hpost).
  pose proof (DexieFacts.orderBy_perm (Dexie.rows (pendingOps env))) as Hperm.
  fold (Dexie.getPendingOperations (pendingOps env)) in Hperm.
  assert (Hquiet : forall l, l ⊆ pre ++ post ->
            Forall (fun o => type o = UpdatePass /\ ~ addresses s o) l).
  { intros l Hl. apply Forall_forall. intros o Ho.
    assert (Hrow : o ∈ Dexie.rows (pendingOps env)).
    { rewrite <- Hperm, Hsnap. apply Hl in Ho.
      apply elem_of_app in Ho as [Ho | Ho]; apply elem_of_app; [by left |].
      right. by right. }
    split; [by apply (proj1 (Forall_forall _ _) Hall) |].
    apply Hothers; [done |].
    intros ->. apply Hl in Ho. apply elem_of_app in Ho as [Ho | Ho].
    + rewrite Forall_forall in Hpre. by apply (Hpre op Ho).
    + rewrite Forall_forall in Hpost. by apply (Hpost op Ho). }
  destruct (SyncFacts.drain_around Site (serve elsewhere) env pre post op
              Hsnap Hpre Hpost)
    as (Hrows & _ & _ & _ & Hown).
  destruct (drain_elsewhere pre (env, emptyResult) s) as [Hst1 Hcl1].
  { apply Hquiet. intros x Hx. apply elem_of_app. by left. }
  cbn [fst] in Hst1, Hcl1. rewrite Hp in Hst1.
  set (env1 := fst (fold_left turn pre (env, emptyResult))) in *.
  assert (Hserve : serve elsewhere (requestOf op) (world env1)
            = (Resolved {| ok := true; json := Data None |},
               {| store := <[s := UpdateRoute.setVisitor
                                    (payload op !! "name") (payload op !! "mobile")
                                    (payload op !! "city") (payload op !! "age")
                                    (clock (world env1)) p]> (store (world env1));
                  clock := clock (world env1) + 1;
                  signedIn := signedIn (world env1) |})).
  { rewrite (serve_update op _ Ht).
    rewrite (UpdateRouteFacts.PUT_found _ _ _ s p Hb Hne Hst1).
    by rewrite !body_other by done. }
  rewrite SyncFacts.dispatch_effect in Hrows, Hown. cbn [snd] in Hrows, Hown.
  rewrite Hserve in Hrows, Hown. cbn [fst settle ok] in Hrows, Hown.
  split; [| split].
  - subst after. rewrite Hrows. cbn [queueAfter].
    apply SyncFacts.rowsWithId_remove_eq.
  - intros e He Hid. destruct (Hown e He Hid) as (m & Hm & _). discriminate.
  - subst after. unfold Sync.syncPendingOperations. rewrite Hsnap.
    rewrite length_app. cbn [length].
    replace (length pre + S (length post) =? 0)%nat with false
      by (symmetry; apply Nat.eqb_neq; lia).
    rewrite fold_left_app. cbn [fold_left].
    destruct (drain_elsewhere post
                (turn (fold_left turn pre (env, emptyResult)) op) s)
      as [Hst2 Hcl2].
    { apply Hquiet. intros x Hx. apply elem_of_app. by right. }
    rewrite (surjective_pairing (fold_left turn pre (env, emptyResult))) in Hst2, Hcl2.
    rewrite turn_world in Hst2, Hcl2. fold env1 in Hst2, Hcl2.
    rewrite Hserve in Hst2, Hcl2. cbn [snd store clock] in Hst2, Hcl2.
    rewrite lookup_insert_eq in Hst2.
    rewrite (surjective_pairing (fold_left turn pre (env, emptyResult))).
    destruct (fold_left turn post _) as [env2 r2]. cbn [fst] in *.
    eexists. split; [exact Hst2 |]. split; [done |].
    cbn [UpdateRoute.setVisitor updatedAt]. lia.
Qed.

End Server.

End DeliveryFacts.

(** ** Passes on paper *)

Module PdfFacts.
Import PdfGenerator.

Lemma slice_page {A : Type} (l : list A) (s : nat) :
  slice s (Nat.min (s + passesPerPage) (length l)) l = take 4 (drop s l).
Proof.
  unfold slice, passesPerPage.
  destruct (le_lt_dec (s + 4) (length l)) as [Hle | Hlt].
  - f_equal. lia.
  - rewrite Nat.min_r by lia.
    rewrite !take_ge; [done | rewrite length_drop; lia | rewrite length_drop; lia].
Qed.

Lemma cards_imap (f : nat -> PassForPDF -> Drawn) (l : list PassForPDF) :
  (forall i p, card (f i p) = p) -> card <$> imap f l = l.
Proof.
  revert f. induction l as [| p l IH]; intros f Hf; [done |].
  rewrite imap_cons, fmap_cons, Hf. f_equal. apply IH. intros i q. apply Hf.
Qed.

Lemma cards_drawPage (l : list PassForPDF) : card <$> drawPage l = l.
Proof. unfold drawPage. by apply cards_imap. Qed.

Lemma length_drawPage (l : list PassForPDF) : length (drawPage l) = length l.
Proof. unfold drawPage. apply length_imap. Qed.

Lemma pages_cover (l : list PassForPDF) (k : nat) :
  concat ((fun i => take 4 (drop (i * 4) l)) <$> seq 0 k) = take (k * 4) l.
Proof.
  induction k as [| k IH]; [done |].
  rewrite seq_S, fmap_app, concat_app, IH. cbn [fmap list_fmap concat Nat.add].
  rewrite app_nil_r, take_take_drop. f_equal. lia.
Qed.

Lemma generate_pages (passes : list PassForPDF) :
  generatePassPDF passes
  = save ((fun i => drawPage (take 4 (drop (i * 4) passes)))
            <$> seq 0 (ceilDiv (length passes) 4)).
Proof.
  unfold generatePassPDF. cbn zeta. f_equal.
  apply list_fmap_ext. intros _ i _.
  by rewrite slice_page.
Qed.

Lemma ceilDiv_4 (n : nat) :
  (n <= ceilDiv n 4 * 4 < n + 4)%nat.
Proof.
  unfold ceilDiv. pose proof (Nat.div_mod_eq n 4).
  pose proof (Nat.mod_upper_bound n 4 ltac:(lia)).
  destruct (n mod 4 =? 0)%nat eqn:Hm.
  - apply Nat.eqb_eq in Hm. lia.
  - apply Nat.eqb_neq in Hm. lia.
Qed.

(** Saving adds nothing to a document that has a page. *)
Lemma save_pages (passes : list PassForPDF) :
  passes ≠ [] ->
  generatePassPDF passes
  = (fun i => drawPage (take 4 (drop (i * 4) passes)))
      <$> seq 0 (ceilDiv (length passes) 4).
Proof.
  intros Hne. rewrite generate_pages.
  pose proof (ceilDiv_4 (length passes)) as Hc.
  destruct (ceilDiv (length passes) 4) as [| k]; [| done].
  destruct passes; [done | cbn in Hc; lia].
Qed.

(** X18. Four to a page, nothing lost.  For an empty list the saved
    document is a single page without cards.  For [n > 0] passes it has
    [ceil(n / 4)] pages, each with between one and four cards.  In both
    cases the cards drawn, read page by page, are the given passes, each once
    and in order, and every page but the last carries four. *)
Theorem pdf_pagination (passes : list PassForPDF) :
  let pages := generatePassPDF passes in
  length pages = Nat.max 1 (ceilDiv (length passes) 4)
  /\ concat ((fun page : list Drawn => card <$> page) <$> pages) = passes
  /\ (passes = [] -> pages = [[]])
  /\ (passes ≠ [] ->
        length pages = ceilDiv (length passes) 4
        /\ Forall (fun page => (1 <= length page <= 4)%nat) pages)
  /\ (forall i page, pages !! i = Some page -> (S i < length pages)%nat ->
        length page = 4%nat).
Proof.
  cbn zeta. destruct (decide (passes = [])) as [-> | Hne].
  { split; [done |]. split; [done |]. split; [done |]. split; [done |].
    intros i page _ Hi. cbn in Hi. lia. }
  rewrite (save_pages passes Hne).
  pose proof (ceilDiv_4 (length passes)) as Hc.
  assert (Hpos : (0 < length passes)%nat)
    by (destruct passes; [done | cbn; lia]).
  set (k := ceilDiv (length passes) 4) in *.
  assert (Hlen : length ((fun i => drawPage (take 4 (drop (i * 4) passes)))
                           <$> seq 0 k) = k)
    by (by rewrite length_fmap, length_seq).
  split; [rewrite Hlen; lia |]. split; [| split; [done |]; split].
  - rewrite <- list_fmap_compose.
    erewrite list_fmap_ext;
      [| intros ? i _; unfold compose; by rewrite cards_drawPage].
    rewrite pages_cover. apply take_ge. lia.
  - intros _. split; [exact Hlen |].
    apply Forall_forall. intros page (i & -> & Hi)%list_elem_of_fmap_1.
    apply elem_of_seq in Hi. rewrite length_drawPage, length_take, length_drop. lia.
  - intros i page Hi Hlast. rewrite Hlen in Hlast.
    rewrite list_lookup_fmap in Hi.
    destruct (seq 0 k !! i) as [j |] eqn:Hj; [| discriminate].
    apply lookup_seq in Hj as [-> _]. cbn in Hi. injection Hi as <-.
    rewrite length_drawPage, length_take, length_drop. lia.
Qed.

Lemma drawPage_lookup (l : list PassForPDF) (i : nat) (d : Drawn) :
  (length l <= 4)%nat -> drawPage l !! i = Some d ->
  (i < 4)%nat
  /\ x d = (inject_Z (Z.of_nat (i mod 2)) * PASS_WIDTH)%Q
  /\ y d = (A4_HEIGHT - (inject_Z (Z.of_nat (i / 2)) + 1) * PASS_HEIGHT)%Q.
Proof.
  intros Hlen Hd. unfold drawPage in Hd. rewrite list_lookup_imap in Hd.
  destruct (l !! i) as [p |] eqn:Hp; [| discriminate].
  apply lookup_lt_Some in Hp. cbn in Hd. injection Hd as <-.
  split; [lia | done].
Qed.

(** X19. The cards fit and do not overlap: every card is drawn inside the A4
    page, as a rectangle of half the page's width and height, and two cards
    of the same page never cover common ground. *)
Theorem pdf_cards_fit (passes : list PassForPDF) (page : list Drawn) :
  page ∈ generatePassPDF passes ->
  (forall d, d ∈ page ->
     (0 <= x d /\ x d + PASS_WIDTH <= A4_WIDTH
      /\ 0 <= y d /\ y d + PASS_HEIGHT <= A4_HEIGHT)%Q)
  /\ (forall i j d e,
        page !! i = Some d -> page !! j = Some e -> i ≠ j ->
        (x d + PASS_WIDTH <= x e \/ x e + PASS_WIDTH <= x d
         \/ y d + PASS_HEIGHT <= y e \/ y e + PASS_HEIGHT <= y d)%Q).
Proof.
  destruct (decide (passes = [])) as [-> | Hsome].
  { intros ->%list_elem_of_singleton. split.
    - by intros d ?%elem_of_nil.
    - by intros i j d e ?. }
  rewrite (save_pages passes Hsome). intros (k & -> & _)%list_elem_of_fmap_1.
  assert (Hlen : (length (take 4 (drop (k * 4) passes)) <= 4)%nat)
    by (rewrite length_take; lia).
  split.
  - intros d (i & Hd)%list_elem_of_lookup_1.
    destruct (drawPage_lookup _ i d Hlen Hd) as (Hi & -> & ->).
    destruct i as [| [| [| [| i]]]]; [| | | | lia]; vm_compute; repeat split;
      discriminate.
  - intros i j d e Hd He Hne.
    destruct (drawPage_lookup _ i d Hlen Hd) as (Hi & -> & ->).
    destruct (drawPage_lookup _ j e Hlen He) as (Hj & -> & ->).
    destruct i as [| [| [| [| i]]]]; [| | | | lia];
      destruct j as [| [| [| [| j]]]]; try lia; try done;
      vm_compute; intuition discriminate.
Qed.

End PdfFacts.

(** ** The further properties at work *)

Module Checks.


(** VIS-0001, last updated at 100, through a batch of a stale and a fresh
    status update. *)
Lemma batch_never_rewinds_witness :
  exists p',
    fst (SyncRoute.POST Samples.oneFresh
           [SyncRouteSpec.posted (Samples.markUsed 1 50);
            SyncRouteSpec.posted (MoreSamples.markUnused 2 200)])
      !! "VIS-0001" = Some p'
    /\ 100 <= updatedAt p'.
Proof.
  refine (BatchFacts.batch_never_rewinds Samples.oneFresh
            [SyncRouteSpec.posted (Samples.markUsed 1 50);
             SyncRouteSpec.posted (MoreSamples.markUnused 2 200)]
            "VIS-0001" Samples.freshPass _ eq_refl).
  repeat constructor; by eexists.
Defined.

(** Marked used at 150 and reverted at 200, delivered in the wrong order. *)
Lemma later_status_update_wins_witness :
  fst (SyncRoute.POST Samples.oneFresh
         [SyncRouteSpec.posted (MoreSamples.markUnused 2 200);
          SyncRouteSpec.posted (Samples.markUsed 1 150)])
  = fst (SyncRoute.POST Samples.oneFresh
           [SyncRouteSpec.posted (MoreSamples.markUnused 2 200)]).
Proof.
  refine (proj2 (BatchFacts.later_status_update_wins Samples.oneFresh
                   (SyncRouteSpec.posted (Samples.markUsed 1 150))
                   (SyncRouteSpec.posted (MoreSamples.markUnused 2 200))
                   150 200 eq_refl eq_refl eq_refl eq_refl eq_refl eq_refl _)).
  eexists. split; [reflexivity | discriminate].
Defined.

(** A request whose body is the number 7. *)
Lemma put_answers_witness :
  UpdateRoute.PUT_json Samples.oneFilled 500 (Json (VNum 7))
  = Some (Samples.oneFilled,
          UpdateRoute.mkAnswer 400 (Some "Pass ID is required") None).
Proof.
  apply (proj1 (proj2 (proj2 (VisitorFacts.put_answers Samples.oneFilled 500))));
    done.
Defined.

(** VIS-0001 checked in at 500, and again at 600. *)
Lemma check_in_is_first_come_witness :
  let body : obj := <["passId" := VStr "VIS-0001"]> (<["status" := VStr "used"]> ∅) in
  let p' := StatusRoute.setStatus (VStr "used") 500 Samples.freshPass in
  StatusRoute.PATCH (<["VIS-0001" := p']> Samples.oneFresh) 600 true body
  = (<["VIS-0001" := p']> Samples.oneFresh,
     StatusRoute.mkAnswer 409 (Some "Pass is already marked as used") (Some p')).
Proof.
  cbn zeta.
  refine (proj2 (proj2 (proj2 (proj2 (proj2
            (CheckInFacts.check_in_is_first_come Samples.oneFresh 500 600
               (<["passId" := VStr "VIS-0001"]> (<["status" := VStr "used"]> ∅))
               "VIS-0001" Samples.freshPass eq_refl _ eq_refl eq_refl _)))))); done.
Defined.

(** A name, then a mobile number, for the same pass. *)
Lemma last_put_wins_witness :
  fst (UpdateRoute.PUT (fst (UpdateRoute.PUT Samples.oneFilled 500 Samples.nameOnly))
         600 MoreSamples.mobileOnly)
  = fst (UpdateRoute.PUT Samples.oneFilled 600 MoreSamples.mobileOnly).
Proof.
  apply (VisitorFacts.last_put_wins Samples.oneFilled 500 600 Samples.nameOnly
           MoreSamples.mobileOnly "VIS-0001"); try reflexivity; [done | eauto].
Defined.

(** Reading VIS-0001 back after a request that gave only a name. *)
Lemma details_after_update_witness :
  exists d,
    PassRoute.GET (fst (UpdateRoute.PUT Samples.oneFilled 500 Samples.nameOnly))
      "VIS-0001" = PassRoute.mkAnswer 200 None (Some d)
    /\ PassRoute.detailName d = Some (VStr "Asha")
    /\ PassRoute.detailMobile d = Some VNull
    /\ PassRoute.detailUpdatedAt d = 500.
Proof.
  destruct (VisitorFacts.details_after_update Samples.oneFilled 500
              Samples.nameOnly "VIS-0001" Samples.filledPass eq_refl
              ltac:(done) eq_refl)
    as (d & Hd & _ & Hname & Hmobile & _ & _ & Hat & _).
  exists d. repeat split; assumption.
Defined.

Lemma twoQueued_built : QueueSpec.built MoreSamples.twoQueued.
Proof. repeat constructor. Qed.

(** A third operation queued after two. *)
Lemma queue_ids_are_fresh_witness :
  ~ (snd (Dexie.queueOperation (Samples.captured 20) MoreSamples.twoQueued)
       ∈ (id <$> Dexie.rows MoreSamples.twoQueued)).
Proof.
  exact (proj1 (proj2 (proj2 (QueueFacts.queue_ids_are_fresh MoreSamples.twoQueued
                                (Samples.captured 20) twoQueued_built)))).
Defined.

(** Removing id 7 from a queue that holds ids 1 and 2. *)
Lemma remove_is_exact_witness :
  Dexie.removePendingOperation 7 MoreSamples.twoQueued = MoreSamples.twoQueued.
Proof.
  assert (Hout : 7%nat ∉ id <$> Dexie.rows MoreSamples.twoQueued).
  { intros Hin.
    repeat (apply elem_of_cons in Hin as [Hin | Hin]; [discriminate |]).
    by apply elem_of_nil in Hin. }
  exact (proj1 (proj2 (QueueFacts.remove_is_exact 7 MoreSamples.twoQueued)) Hout).
Defined.

(** A third operation queued and removed again. *)
Lemma queue_then_remove_witness :
  Dexie.getPendingOperations
    (Dexie.removePendingOperation 3
       (fst (Dexie.queueOperation (Samples.captured 20) MoreSamples.twoQueued)))
  = Dexie.getPendingOperations MoreSamples.twoQueued.
Proof.
  exact (proj2 (proj2 (proj2 (proj2
           (QueueFacts.queue_then_remove MoreSamples.twoQueued
              (Samples.captured 20) twoQueued_built))))).
Defined.

(** A drain on a device with nothing queued. *)
Lemma drain_sends_oldest_first_witness :
  let idle : Sync.Env unit :=
    {| Sync.pendingOps := Dexie.emptyTable; Sync.world := tt; Sync.trace := [] |} in
  Sync.syncPendingOperations unit Site.noNetwork idle = (idle, Sync.emptyResult).
Proof.
  cbn zeta.
  apply (EngineFacts.drain_sends_oldest_first unit Site.noNetwork). reflexivity.
Defined.

Lemma accepting_answersOk : EngineSpec.answersOk EngineSpec.accepting.
Proof. intros r w. eexists. by split. Qed.

(** Three queued operations drained against a server that accepts them. *)
Lemma accepted_drain_empties_queue_witness :
  Dexie.rows
    (Sync.pendingOps
       (fst (Sync.syncPendingOperations unit EngineSpec.accepting
               MoreSamples.threeQueued))) = [].
Proof.
  exact (proj1 (EngineFacts.accepted_drain_empties_queue unit EngineSpec.accepting
                  MoreSamples.threeQueued accepting_answersOk)).
Defined.

Lemma threeQueued_distinct :
  SyncSpec.distinctIds (Sync.pendingOps MoreSamples.threeQueued).
Proof.
  assert (Hb : QueueSpec.built (Sync.pendingOps MoreSamples.threeQueued))
    by repeat constructor.
  exact (proj1 (QueueFacts.built_ids _ Hb)).
Qed.

(** Three queued operations drained without network: all three stay. *)
Lemma drain_leaves_the_retryable_witness :
  let after := Sync.syncPendingOperations unit Site.noNetwork MoreSamples.threeQueued in
  length (Dexie.rows (Sync.pendingOps (fst after)))
  = length (EngineSpec.retryables (snd after)).
Proof.
  exact (proj1 (EngineFacts.drain_leaves_the_retryable unit Site.noNetwork
                  MoreSamples.threeQueued threeQueued_distinct)).
Defined.

(** The rename of VIS-0001 drained against a server that has the pass. *)
Lemma visitor_update_arrives_witness :
  SyncSpec.rowsWithId 1
    (Sync.pendingOps
       (fst (Sync.syncPendingOperations Site.Site Site.updatesOnly
               MoreSamples.pendingRename))) = [].
Proof.
  refine (proj1 (DeliveryFacts.visitor_update_arrives _ MoreSamples.pendingRename
                   (Samples.rename 1 "VIS-0001" "Asha" 50) "VIS-0001"
                   Samples.freshPass (NoDup_singleton _)
                   ltac:(by repeat constructor) ltac:(by left)
                   (conj eq_refl eq_refl) ltac:(done) eq_refl _)).
  intros o Ho Hne. apply list_elem_of_singleton in Ho. congruence.
Defined.

(** Five passes: the first of the two pages is full. *)
Lemma pdf_pagination_witness :
  exists page,
    PdfGenerator.generatePassPDF MoreSamples.fivePasses !! 0%nat = Some page
    /\ length page = 4%nat.
Proof.
  destruct (PdfFacts.pdf_pagination MoreSamples.fivePasses) as (_ & _ & _ & _ & H).
  eexists. split; [reflexivity |].
  apply (H 0%nat _ eq_refl). cbn. lia.
Defined.

(** The single card of the second page of five passes. *)
Lemma pdf_cards_fit_witness :
  exists page d,
    PdfGenerator.generatePassPDF MoreSamples.fivePasses !! 1%nat = Some page
    /\ page !! 0%nat = Some d
    /\ (0 <= PdfGenerator.x d)%Q.
Proof.
  eexists. eexists. split; [reflexivity |]. split; [reflexivity |].
  refine (proj1 (proj1 (PdfFacts.pdf_cards_fit MoreSamples.fivePasses _ _) _ _)).
  - apply list_elem_of_lookup. by exists 1%nat.
  - by left.
Defined.

End Checks.
